(** * qutebrowser: the cookie jar and the network manager

    A shallow embedding of [qutebrowser/browser/cookies.py] (class
    [CookieJar]) and [qutebrowser/network/networkmanager.py] (class
    [NetworkManager]), with the properties the design document states
    about them.

    Both classes extend Qt classes.  What Qt itself does is not code of the
    program.  Parsing and printing a cookie and the cookie merge of the base
    jar are taken as an interface ([QtCookies]), and every theorem holds for
    every implementation of it.  The transport behind
    [QNetworkAccessManager.createRequest] is not interpreted: a reply of the
    transport is named by the call that made it.  The calls a method makes
    on its collaborators are recorded in the order they are made.

    Further on come the authentication slots of the network manager, the
    readline bridge of [qutebrowser/utils/readline.py] (over an interface
    of the [QLineEdit] methods it calls, and over a line edit that follows
    Qt's line control) and the hooks and the message mock of
    [tests/conftest.py]. *)

From stdpp Require Import base option list strings gmap.
From Stdlib Require Import ZArith Lia.

Local Open Scope Z_scope.

(** ** Python values

    A Python [str] is held as the bytes of its UTF-8 encoding and a Python
    [bytes] (or a [QByteArray]) as its bytes, both in a Rocq [string].  So
    [s.encode('utf-8')] is the identity, [b.decode('utf-8')] succeeds exactly
    on well-formed UTF-8 and [s.encode('ascii')] exactly on bytes below 128;
    the other two raise. *)

Inductive Exception :=
| ValueError
| UnicodeDecodeError
| UnicodeEncodeError
| OSError.

Inductive Result (A : Type) :=
| Ok (a : A)
| Raise (e : Exception).
Arguments Ok {A} a.
Arguments Raise {A} e.

#[global] Instance Exception_eq_dec : EqDecision Exception.
Proof. solve_decision. Defined.

Definition in_range (lo hi b : N) : bool := ((lo <=? b) && (b <=? hi))%N.

Definition continuation (b : N) : bool := in_range 0x80 0xBF b.

(** Well-formed UTF-8 byte sequences (the Unicode standard's table 3-7):
    no overlong form, no surrogate, nothing above U+10FFFF. *)
Fixpoint utf8_valid (bs : list N) : bool :=
  match bs with
  | [] => true
  | b0 :: r0 =>
    if (b0 <? 0x80)%N then utf8_valid r0
    else
      match r0 with
      | [] => false
      | b1 :: r1 =>
        if in_range 0xC2 0xDF b0 then continuation b1 && utf8_valid r1
        else
          match r1 with
          | [] => false
          | b2 :: r2 =>
            if in_range 0xE0 0xEF b0 then
              (if (b0 =? 0xE0)%N then in_range 0xA0 0xBF b1
               else if (b0 =? 0xED)%N then in_range 0x80 0x9F b1
               else continuation b1)
              && continuation b2 && utf8_valid r2
            else
              match r2 with
              | [] => false
              | b3 :: r3 =>
                if in_range 0xF0 0xF4 b0 then
                  (if (b0 =? 0xF0)%N then in_range 0x90 0xBF b1
                   else if (b0 =? 0xF4)%N then in_range 0x80 0x8F b1
                   else continuation b1)
                  && continuation b2 && continuation b3 && utf8_valid r3
                else false
              end
          end
      end
  end.

Definition bytes_of (s : string) : list N :=
  List.map Ascii.N_of_ascii (String.list_ascii_of_string s).

(** [b.decode('utf-8')] *)
Definition decode_utf8 (b : string) : Result string :=
  if utf8_valid (bytes_of b) then Ok b else Raise UnicodeDecodeError.

(** [s.encode('ascii')] *)
Definition encode_ascii (s : string) : Result string :=
  if forallb (fun b => (b <? 0x80)%N) (bytes_of s) then Ok s
  else Raise UnicodeEncodeError.

(** [l.remove(x)]: drops the first item equal to [x]; [None] is the
    [ValueError] Python raises when there is none. *)
Fixpoint list_remove {A} `{EqDecision A} (x : A) (l : list A) : option (list A) :=
  match l with
  | [] => None
  | y :: l' => if decide (y = x) then Some l' else (y ::.) <$> list_remove x l'
  end.

(** Methods read and update an object and may raise: a state and exception
    monad.  The state an exception leaves behind is kept, as in Python. *)
Definition Py (S A : Type) : Type := S -> Result A * S.

Definition ret {S A} (a : A) : Py S A := fun s => (Ok a, s).

Definition bind {S A B} (m : Py S A) (k : A -> Py S B) : Py S B :=
  fun s =>
    match m s with
    | (Ok a, s') => k a s'
    | (Raise e, s') => (Raise e, s')
    end.

Definition raise {S A} (e : Exception) : Py S A := fun s => (Raise e, s).

Definition lift {S A} (r : Result A) : Py S A := fun s => (r, s).

Definition gets {S A} (f : S -> A) : Py S A := fun s => (Ok (f s), s).

Definition modify {S} (f : S -> S) : Py S unit := fun s => (Ok tt, f s).

Declare Scope py_scope.
Delimit Scope py_scope with py.
Notation "x <- m ;; k" := (bind m (fun x => k))
  (at level 100, m at next level, right associativity) : py_scope.
Notation "m ;;; k" := (bind m (fun _ => k))
  (at level 100, right associativity) : py_scope.

(** [for x in xs: body(x)] *)
Fixpoint for_each {S A} (xs : list A) (body : A -> Py S unit) : Py S unit :=
  match xs with
  | [] => ret tt
  | x :: xs' => bind (body x) (fun _ => for_each xs' body)
  end.

(** ** Configuration

    [config.get(section, option)] reads a typed setting.  The settings the
    two classes read are collected in one record; the field names follow the
    section and the option. *)

Record Config := {
  permissions_cookies_accept : string;      (* ('permissions', 'cookies-accept') *)
  permissions_cookies_store : bool;         (* ('permissions', 'cookies-store') *)
  network_ssl_strict : bool;                (* ('network', 'ssl-strict') *)
  network_do_not_track : bool;              (* ('network', 'do-not-track') *)
  network_accept_language : option string   (* ('network', 'accept-language'); None is Python's None *)
}.

(** ** cookies.py *)

Module cookies.

(** A [QDateTime] is a number of milliseconds since the epoch. *)
Definition QDateTime := Z.

(** The fields of a [QNetworkCookie].  A cookie whose expiration date is not
    valid has [expirationDate = None]; Qt's [isSessionCookie] is exactly
    that test. *)
Record QNetworkCookie := {
  name : string;
  value : string;
  domain : string;
  path : string;
  expirationDate : option QDateTime;
  secure : bool
}.

#[global] Instance QNetworkCookie_eq_dec : EqDecision QNetworkCookie.
Proof. solve_decision. Defined.

Definition isSessionCookie (c : QNetworkCookie) : bool :=
  match expirationDate c with
  | None => true
  | Some _ => false
  end.

(** [c.expirationDate() >= now].  The source evaluates it only behind
    [c.isSessionCookie() or ...], that is for a valid date. *)
Definition expirationDate_ge (c : QNetworkCookie) (now : QDateTime) : bool :=
  match expirationDate c with
  | Some t => bool_decide (now <= t)
  | None => false
  end.

Definition QUrl := string.

(** What the program calls in Qt's cookie classes. *)
Class QtCookies := {
  (* QNetworkCookie.parseCookies(bytes): the cookies of one line *)
  parseCookies : string -> list QNetworkCookie;
  (* QNetworkCookie.toRawForm(): a QByteArray *)
  toRawForm : QNetworkCookie -> string;
  (* QNetworkCookieJar.setCookiesFromUrl(cookies, url) on a jar holding the
     given cookies: the answer and the jar's cookies afterwards *)
  super_setCookiesFromUrl :
    list QNetworkCookie -> QUrl -> list QNetworkCookie -> bool * list QNetworkCookie
}.

(** Modelled from the spec: [lineparser.LineConfigParser], the line-oriented
    reader and writer of the persisted file, is not among the sources.  The
    object carries [data], the lines it yields when iterated and the lines
    [save()] writes, and the backing file.  [save()] overwrites the file
    wholesale with [data], in one step; when the file cannot be written it
    raises an I/O error ([OSError]) and the file is as it was.  [writable]
    is whether the file can be written: a state of the data directory,
    which no method of the jar changes. *)
Record LineConfigParser := {
  data : list string;
  file : list string;
  writable : bool
}.

Definition LineConfigParser_open (on_disk : list string) : LineConfigParser :=
  {| data := on_disk; file := on_disk; writable := true |}.

(** The parser of a file in a directory that cannot be written. *)
Definition LineConfigParser_read_only (p : LineConfigParser)
  : LineConfigParser :=
  {| data := data p; file := file p; writable := false |}.

Definition LineConfigParser_set_data (lines : list string) (p : LineConfigParser)
  : LineConfigParser :=
  {| data := lines; file := file p; writable := writable p |}.

Definition LineConfigParser_save (p : LineConfigParser)
  : Result LineConfigParser :=
  if writable p
  then Ok {| data := data p; file := data p; writable := writable p |}
  else Raise OSError.

(** The jar: the cookies Qt's base class holds ([allCookies()] /
    [setAllCookies()]) and the [_linecp] attribute. *)
Record CookieJar := {
  allCookies : list QNetworkCookie;
  _linecp : LineConfigParser
}.

Definition setAllCookies (cs : list QNetworkCookie) : Py CookieJar unit :=
  modify (fun jar => {| allCookies := cs; _linecp := _linecp jar |}).

Definition set_linecp (p : LineConfigParser) : Py CookieJar unit :=
  modify (fun jar => {| allCookies := allCookies jar; _linecp := p |}).

Section methods.
Context `{QtCookies}.

Local Open Scope py_scope.

(** The loop of [__init__], from the lines not yet read and [cookies] so far. *)
Fixpoint init_loop (lines : list string) (cookies : list QNetworkCookie)
  : list QNetworkCookie :=
  match lines with
  | [] => cookies
  | line :: lines' => init_loop lines' (cookies ++ parseCookies line)
  end.

(** [CookieJar.__init__]; [on_disk] is the content of the cookies file.
<<
    self._linecp = lineparser.LineConfigParser(datadir, 'cookies')
    cookies = []
    for line in self._linecp:
        cookies += QNetworkCookie.parseCookies(line.encode('utf-8'))
    self.setAllCookies(cookies)
>> *)
Definition init (on_disk : list string) : CookieJar :=
  let linecp := LineConfigParser_open on_disk in
  let cookies := init_loop (data linecp) [] in
  snd (setAllCookies cookies {| allCookies := []; _linecp := linecp |}).

(** The test of the comprehension in [purge_old_cookies]. *)
Definition kept (now : QDateTime) (c : QNetworkCookie) : bool :=
  isSessionCookie c || expirationDate_ge c now.

(** [CookieJar.purge_old_cookies]; [now] is [QDateTime.currentDateTime()].
<<
    cookies = [c for c in self.allCookies()
               if c.isSessionCookie() or c.expirationDate() >= now]
    self.setAllCookies(cookies)
>> *)
Definition purge_old_cookies (now : QDateTime) : Py CookieJar unit :=
  all <- gets allCookies;;
  let cookies := List.filter (kept now) all in
  setAllCookies cookies.

(** [CookieJar.setCookiesFromUrl].
<<
    if config.get('permissions', 'cookies-accept') == 'never':
        return False
    else:
        return super().setCookiesFromUrl(cookies, url)
>> *)
Definition setCookiesFromUrl (cfg : Config) (cookies : list QNetworkCookie)
    (url : QUrl) : Py CookieJar bool :=
  if String.eqb (permissions_cookies_accept cfg) "never" then
    ret false
  else
    all <- gets allCookies;;
    let '(set, cs) := super_setCookiesFromUrl cookies url all in
    setAllCookies cs;;;
    ret set.

(** The loop of [save], from the cookies not yet visited and [lines] so far. *)
Fixpoint save_loop (cookies : list QNetworkCookie) (lines : list string)
  : Result (list string) :=
  match cookies with
  | [] => Ok lines
  | cookie :: cookies' =>
    if negb (isSessionCookie cookie) then
      match decode_utf8 (toRawForm cookie) with
      | Ok line => save_loop cookies' (lines ++ [line])
      | Raise e => Raise e
      end
    else save_loop cookies' lines
  end.

(** [CookieJar.save].
<<
    if not config.get('permissions', 'cookies-store'):
        return
    self.purge_old_cookies()
    lines = []
    for cookie in self.allCookies():
        if not cookie.isSessionCookie():
            lines.append(bytes(cookie.toRawForm()).decode('utf-8'))
    self._linecp.data = lines
    self._linecp.save()
>> *)
Definition save (cfg : Config) (now : QDateTime) : Py CookieJar unit :=
  if negb (permissions_cookies_store cfg) then
    ret tt
  else
    purge_old_cookies now;;;
    all <- gets allCookies;;
    lines <- lift (save_loop all []);;
    linecp <- gets _linecp;;
    set_linecp (LineConfigParser_set_data lines linecp);;;
    linecp <- gets _linecp;;
    linecp <- lift (LineConfigParser_save linecp);;
    set_linecp linecp.

End methods.

End cookies.

(** ** networkmanager.py *)

Module networkmanager.

Record QUrl := {
  scheme : string;          (* url.scheme(), which Qt gives in lower case *)
  remainder : string        (* what follows the scheme *)
}.

Definition lower_ascii (a : Ascii.ascii) : Ascii.ascii :=
  let n := Ascii.N_of_ascii a in
  if in_range 0x41 0x5A n then Ascii.ascii_of_N (n + 0x20) else a.

Fixpoint lower (s : string) : string :=
  match s with
  | EmptyString => EmptyString
  | String a s' => String (lower_ascii a) (lower s')
  end.

(** The name of a raw header is compared without regard to case. *)
Definition same_header (key key' : string) : bool :=
  String.eqb (lower key) (lower key').

(** A [QNetworkRequest]: its URL and its raw headers, in the order set. *)
Record QNetworkRequest := {
  url : QUrl;
  rawHeaders : list (string * string)
}.

(** [req.rawHeader(key)], [None] for a header that is not set. *)
Definition rawHeader (key : string) (req : QNetworkRequest) : option string :=
  snd <$> List.find (fun h => same_header (fst h) key) (rawHeaders req).

(** [req.setRawHeader(key, value)] for a [value] that is not a null
    [QByteArray] (a Python [bytes] never is): Qt erases every header of that
    name and appends the new pair. *)
Definition setRawHeader (key value : string) (req : QNetworkRequest)
  : QNetworkRequest :=
  {| url := url req;
     rawHeaders :=
       List.filter (fun h => negb (same_header (fst h) key)) (rawHeaders req)
       ++ [(key, value)] |}.

Inductive Operation :=
| HeadOperation
| GetOperation
| PutOperation
| PostOperation
| DeleteOperation
| CustomOperation.

Inductive NetworkAccessibility :=
| UnknownAccessibility
| NotAccessible
| Accessible.

Inductive NetworkError :=
| ProtocolUnknownError.

(** The identity of an object the transport creates. *)
Definition ObjId := nat.

(** [outgoing_data]: a [QIODevice] or [None]. *)
Definition OutgoingData := option string.

(** The replies [createRequest] can return.  An [ErrorNetworkReply] is what
    [schemehandler.ErrorNetworkReply(req, errorstring, error)] builds; a
    [SpecialNetworkReply] is a reply a scheme handler builds in-process; a
    [NetworkReply] is the object [super().createRequest(op, req,
    outgoing_data)] returned, named by its identity and by the call that
    made it (the accessibility of the manager included). *)
Inductive QNetworkReply :=
| ErrorNetworkReply (req : QNetworkRequest) (errorstring : string)
    (error : NetworkError)
| SpecialNetworkReply (req : QNetworkRequest) (fileData mimeType : string)
| NetworkReply (obj : ObjId) (accessible : NetworkAccessibility)
    (op : Operation) (req : QNetworkRequest) (outgoing_data : OutgoingData).

(** [reply.request()] *)
Definition NetworkReply_request (reply : QNetworkReply) : QNetworkRequest :=
  match reply with
  | ErrorNetworkReply req _ _ => req
  | SpecialNetworkReply req _ _ => req
  | NetworkReply _ _ _ req _ => req
  end.

#[global] Instance QUrl_eq_dec : EqDecision QUrl.
Proof. solve_decision. Defined.
#[global] Instance QNetworkRequest_eq_dec : EqDecision QNetworkRequest.
Proof. solve_decision. Defined.
#[global] Instance Operation_eq_dec : EqDecision Operation.
Proof. solve_decision. Defined.
#[global] Instance NetworkAccessibility_eq_dec : EqDecision NetworkAccessibility.
Proof. solve_decision. Defined.
#[global] Instance NetworkError_eq_dec : EqDecision NetworkError.
Proof. solve_decision. Defined.
#[global] Instance QNetworkReply_eq_dec : EqDecision QNetworkReply.
Proof. solve_decision. Defined.

(** A scheme handler: an object with a method
    [createRequest(op, req, outgoing_data)], which builds a reply from what
    it is given.  The handlers of the program ([qutescheme]) are not among
    the sources; a handler is any such function. *)
Record SchemeHandler := {
  handler_createRequest :
    Operation -> QNetworkRequest -> OutgoingData -> QNetworkReply
}.

Record QSslError := {
  errorString : string
}.

(** What the manager asks of its collaborators: the [message] module (the
    user-interaction service), the replies, the base class and [log].
    [message_warning] is the service's report of lower severity, the one the
    FIXME in [on_ssl_errors] speaks of. *)
Inductive Call :=
| message_error (text : string)
| message_warning (text : string)
| ignoreSslErrors (reply : QNetworkReply)
| abort (request : QNetworkReply)
| deleteLater (request : QNetworkReply)
| transport_createRequest (op : Operation) (req : QNetworkRequest)
    (outgoing_data : OutgoingData)
| destroyed_connect (reply : QNetworkReply)
| disable_qt_msghandler_enter
| disable_qt_msghandler_exit.

(** The manager: its two attributes, the accessibility the base class keeps,
    and the world it acts on: the calls made so far, oldest first, and the
    identity the transport gives its next reply. *)
Record NetworkManager := {
  _requests : list QNetworkReply;
  _scheme_handlers : gmap string SchemeHandler;
  networkAccessible : NetworkAccessibility;
  calls : list Call;
  next_obj : ObjId
}.

(** The module's global [SSL_AVAILABLE], PyQt's [PYQT_VERSION] and the
    configuration. *)
Record Environment := {
  SSL_AVAILABLE : bool;
  PYQT_VERSION : Z;
  config : Config
}.

(** The manager after the calls [cs] were made. *)
Definition with_calls (cs : list Call) (nm : NetworkManager) : NetworkManager :=
  {| _requests := _requests nm;
     _scheme_handlers := _scheme_handlers nm;
     networkAccessible := networkAccessible nm;
     calls := calls nm ++ cs;
     next_obj := next_obj nm |}.

Definition with_requests (rs : list QNetworkReply) (nm : NetworkManager)
  : NetworkManager :=
  {| _requests := rs;
     _scheme_handlers := _scheme_handlers nm;
     networkAccessible := networkAccessible nm;
     calls := calls nm;
     next_obj := next_obj nm |}.

Definition with_accessible (a : NetworkAccessibility) (nm : NetworkManager)
  : NetworkManager :=
  {| _requests := _requests nm;
     _scheme_handlers := _scheme_handlers nm;
     networkAccessible := a;
     calls := calls nm;
     next_obj := next_obj nm |}.

Definition with_next_obj (n : ObjId) (nm : NetworkManager) : NetworkManager :=
  {| _requests := _requests nm;
     _scheme_handlers := _scheme_handlers nm;
     networkAccessible := networkAccessible nm;
     calls := calls nm;
     next_obj := n |}.

Definition call (c : Call) : Py NetworkManager unit :=
  modify (with_calls [c]).

Definition set_requests (rs : list QNetworkReply) : Py NetworkManager unit :=
  modify (with_requests rs).

(** [self.setNetworkAccessible(a)] *)
Definition setNetworkAccessible (a : NetworkAccessibility)
  : Py NetworkManager unit :=
  modify (with_accessible a).

Definition fresh_obj : Py NetworkManager ObjId :=
  fun nm => (Ok (next_obj nm), with_next_obj (S (next_obj nm)) nm).


Definition is_message_error (c : Call) : bool :=
  match c with message_error _ => true | _ => false end.

Definition is_message_warning (c : Call) : bool :=
  match c with message_warning _ => true | _ => false end.

Local Open Scope py_scope.

(** [NetworkManager.__init__]; [qute] is [qutescheme.QuteSchemeHandler()]
    and [accessible] the accessibility Qt starts the manager with.  The
    cookie jar and the signal connections of the constructor are not part of
    the state kept here.
<<
    self._requests = []
    self._scheme_handlers = {
        'qute': qutescheme.QuteSchemeHandler(),
    }
>> *)
Definition init (qute : SchemeHandler) (accessible : NetworkAccessibility)
  : NetworkManager :=
  {| _requests := [];
     _scheme_handlers := {[ "qute" := qute ]};
     networkAccessible := accessible;
     calls := [];
     next_obj := 0%nat |}.

(** [NetworkManager.shutdown].
<<
    self.setNetworkAccessible(QNetworkAccessManager.NotAccessible)
    for request in self._requests:
        request.abort()
        request.deleteLater()
>> *)
Definition shutdown : Py NetworkManager unit :=
  setNetworkAccessible NotAccessible;;;
  requests <- gets _requests;;
  for_each requests (fun request =>
    call (abort request);;;
    call (deleteLater request)).

(** [NetworkManager.on_ssl_errors].
<<
    if config.get('network', 'ssl-strict'):
        return
    for err in errors:
        # FIXME we might want to use warn here (non-fatal error)
        message.error('SSL error: {}'.format(err.errorString()))
    reply.ignoreSslErrors()
>> *)
Definition on_ssl_errors (env : Environment) (reply : QNetworkReply)
    (errors : list QSslError) : Py NetworkManager unit :=
  if network_ssl_strict (config env) then
    ret tt
  else
    for_each errors (fun err =>
      call (message_error ("SSL error: " +:+ errorString err)));;;
    call (ignoreSslErrors reply).

(** [super().createRequest(op, req, outgoing_data)]: the transport is
    called and answers with a new object. *)
Definition super_createRequest (op : Operation) (req : QNetworkRequest)
    (outgoing_data : OutgoingData) : Py NetworkManager QNetworkReply :=
  call (transport_createRequest op req outgoing_data);;;
  accessible <- gets networkAccessible;;
  obj <- fresh_obj;;
  ret (NetworkReply obj accessible op req outgoing_data).

(** The slot connected to [reply.destroyed]:
    [lambda obj: self._requests.remove(obj)]. *)
Definition on_destroyed (obj : QNetworkReply) : Py NetworkManager unit :=
  requests <- gets _requests;;
  match list_remove obj requests with
  | Some requests' => set_requests requests'
  | None => raise ValueError
  end.

(** [NetworkManager.createRequest].  The request is a Python object the
    method updates in place: the method's answer is the reply together with
    the request as it is afterwards.
<<
    scheme = req.url().scheme()
    if scheme == 'https' and not SSL_AVAILABLE:
        return schemehandler.ErrorNetworkReply(
            req, "SSL is not supported by the installed Qt library!",
            QNetworkReply.ProtocolUnknownError)
    elif scheme in self._scheme_handlers:
        return self._scheme_handlers[scheme].createRequest(
            op, req, outgoing_data)
    if config.get('network', 'do-not-track'):
        dnt = '1'.encode('ascii')
    else:
        dnt = '0'.encode('ascii')
    req.setRawHeader('DNT'.encode('ascii'), dnt)
    req.setRawHeader('X-Do-Not-Track'.encode('ascii'), dnt)
    accept_language = config.get('network', 'accept-language')
    if accept_language is not None:
        req.setRawHeader('Accept-Language'.encode('ascii'),
                         accept_language.encode('ascii'))
    if PYQT_VERSION < 0x050301:
        with log.disable_qt_msghandler():
            reply = super().createRequest(op, req, outgoing_data)
    else:
        reply = super().createRequest(op, req, outgoing_data)
    self._requests.append(reply)
    reply.destroyed.connect(lambda obj: self._requests.remove(obj))
    return reply
>>
    The only exception is the [UnicodeEncodeError] of
    [accept_language.encode('ascii')]; it is raised before the transport is
    called. *)
Definition createRequest (env : Environment) (op : Operation)
    (req : QNetworkRequest) (outgoing_data : OutgoingData)
  : Py NetworkManager (QNetworkReply * QNetworkRequest) :=
  let scheme := scheme (url req) in
  if String.eqb scheme "https" && negb (SSL_AVAILABLE env) then
    ret (ErrorNetworkReply req
           "SSL is not supported by the installed Qt library!"
           ProtocolUnknownError, req)
  else
    handlers <- gets _scheme_handlers;;
    match handlers !! scheme with
    | Some handler =>
      ret (handler_createRequest handler op req outgoing_data, req)
    | None =>
      let dnt := if network_do_not_track (config env) then "1" else "0" in
      let req := setRawHeader "DNT" dnt req in
      let req := setRawHeader "X-Do-Not-Track" dnt req in
      req <- match network_accept_language (config env) with
             | Some accept_language =>
               value <- lift (encode_ascii accept_language);;
               ret (setRawHeader "Accept-Language" value req)
             | None => ret req
             end;;
      reply <- (if PYQT_VERSION env <? 0x050301 then
                  call disable_qt_msghandler_enter;;;
                  reply <- super_createRequest op req outgoing_data;;
                  call disable_qt_msghandler_exit;;;
                  ret reply
                else
                  super_createRequest op req outgoing_data);;
      requests <- gets _requests;;
      set_requests (requests ++ [reply]);;;
      call (destroyed_connect reply);;;
      ret (reply, req)
    end.

(** The events of a manager's life: a request is created, a reply is
    destroyed, the manager is shut down, a TLS error is reported. *)
Inductive step (env : Environment) : NetworkManager -> NetworkManager -> Prop :=
| step_createRequest op req outgoing_data nm :
    step env nm (snd (createRequest env op req outgoing_data nm))
| step_on_destroyed obj nm :
    step env nm (snd (on_destroyed obj nm))
| step_shutdown nm :
    step env nm (snd (shutdown nm))
| step_on_ssl_errors reply errors nm :
    step env nm (snd (on_ssl_errors env reply errors nm)).

(** The states a manager reaches from its constructor. *)
Inductive reachable (env : Environment) : NetworkManager -> Prop :=
| reachable_init qute accessible :
    reachable env (init qute accessible)
| reachable_step nm nm' :
    reachable env nm -> step env nm nm' -> reachable env nm'.

(** No reply is tracked twice, and every tracked reply is a reply of the
    transport, made before the next one. *)
Definition tracker_ok (nm : NetworkManager) : Prop :=
  NoDup (_requests nm) /\
  forall r, r ∈ _requests nm ->
    exists obj accessible op req outgoing_data,
      r = NetworkReply obj accessible op req outgoing_data /\
      (obj < next_obj nm)%nat.

End networkmanager.

(** ** Inputs of the examples *)

Module examples.
Import cookies.

Definition old_cookie : QNetworkCookie :=
  {| name := "old"; value := "1"; domain := "example.com"; path := "/";
     expirationDate := Some 1000; secure := false |}.

Definition fresh_cookie : QNetworkCookie :=
  {| name := "id"; value := "42"; domain := "example.com"; path := "/";
     expirationDate := Some 9000; secure := false |}.

Definition session_cookie : QNetworkCookie :=
  {| name := "session"; value := "true"; domain := "example.com"; path := "/";
     expirationDate := None; secure := false |}.

(** A cookie whose value is the single byte 0xFF, as a server that does not
    send UTF-8 sets it. *)
Definition latin1_cookie : QNetworkCookie :=
  {| name := "a"; value := String (Ascii.ascii_of_N 0xFF) EmptyString;
     domain := "example.com"; path := "/";
     expirationDate := Some 9000; secure := false |}.

(** A stand-in for Qt in the examples: it parses the one line the examples
    load, prints a cookie in the name-and-value form (Qt's
    [NameAndValueOnly], with which the full raw form begins), and its base
    jar appends what it is given. *)
#[local] Instance qt_stub : QtCookies := {
  parseCookies line :=
    if String.eqb line "old=1; expires=1000" then [old_cookie] else [];
  toRawForm c := name c +:+ "=" +:+ value c;
  super_setCookiesFromUrl cookies _ all :=
    (negb (Nat.eqb (length cookies) 0), all ++ cookies)
}.

Definition never_cfg : Config :=
  {| permissions_cookies_accept := "never";
     permissions_cookies_store := true;
     network_ssl_strict := false;
     network_do_not_track := true;
     network_accept_language := Some "en-US,en" |}.

Definition jar0 : CookieJar :=
  {| allCookies := [old_cookie; session_cookie; fresh_cookie];
     _linecp := LineConfigParser_open ["old=1; expires=1000"] |}.

Definition latin1_jar : CookieJar :=
  {| allCookies := [latin1_cookie];
     _linecp := LineConfigParser_open [] |}.

Import networkmanager.

(** ssl-strict off, do-not-track on, an accept-language. *)
Definition cfg : Config :=
  {| permissions_cookies_accept := "default";
     permissions_cookies_store := true;
     network_ssl_strict := false;
     network_do_not_track := true;
     network_accept_language := Some "en-US,en" |}.

(** The same with the accept-language set to the empty string. *)
Definition cfg_empty_language : Config :=
  {| permissions_cookies_accept := "default";
     permissions_cookies_store := true;
     network_ssl_strict := false;
     network_do_not_track := true;
     network_accept_language := Some "" |}.

Definition env : Environment :=
  {| SSL_AVAILABLE := true; PYQT_VERSION := 0x050400; config := cfg |}.

Definition env_no_ssl : Environment :=
  {| SSL_AVAILABLE := false; PYQT_VERSION := 0x050400; config := cfg |}.

Definition env_empty_language : Environment :=
  {| SSL_AVAILABLE := true; PYQT_VERSION := 0x050400;
     config := cfg_empty_language |}.

(** A handler for the qute scheme that answers every request with a page. *)
Definition qute : SchemeHandler :=
  {| handler_createRequest _ req _ :=
       SpecialNetworkReply req "<html>qutebrowser</html>" "text/html" |}.

Definition request (scheme remainder : string) : QNetworkRequest :=
  {| url := {| scheme := scheme; remainder := remainder |};
     rawHeaders := [] |}.

(** A request that already carries a do-not-track header, in lower case. *)
Definition request_with_dnt : QNetworkRequest :=
  {| url := {| scheme := "http"; remainder := "//example.com/" |};
     rawHeaders := [("dnt", "0"); ("User-Agent", "qutebrowser")] |}.

(** A manager as the constructor leaves it. *)
Definition nm0 : NetworkManager := init qute Accessible.

(** A manager with one request in flight. *)
Definition nm1 : NetworkManager :=
  snd (createRequest env GetOperation (request "http" "//example.com/") None
         nm0).

Definition reply1 : QNetworkReply :=
  NetworkReply 0%nat Accessible GetOperation
    {| url := {| scheme := "http"; remainder := "//example.com/" |};
       rawHeaders := [("DNT", "1"); ("X-Do-Not-Track", "1");
                      ("Accept-Language", "en-US,en")] |}
    None.

Definition ssl_errors : list QSslError :=
  [ {| errorString := "The host name did not match" |};
    {| errorString := "The certificate has expired" |} ].

End examples.

(** ** networkmanager.py: the authentication slots *)

Module authentication.

(** A [QAuthenticator]: the realm the server named and the credentials. *)
Record QAuthenticator := {
  realm : string;
  user : string;
  password : string
}.

Definition setUser (u : string) (a : QAuthenticator) : QAuthenticator :=
  {| realm := realm a; user := u; password := password a |}.

Definition setPassword (p : string) (a : QAuthenticator) : QAuthenticator :=
  {| realm := realm a; user := user a; password := p |}.

(** [usertypes.PromptMode]; the slots ask in one mode only. *)
Inductive PromptMode :=
| user_pwd.

(** [message.ask(text, mode=...)]: what the user answers to a prompt, a pair
    (user, password) in the mode [user_pwd], [None] when the prompt is
    cancelled. *)
Definition Ask : Type := string -> PromptMode -> option (string * string).

(** [NetworkManager._fill_authenticator].
<<
    if answer is not None:
        user, password = answer
        authenticator.setUser(user)
        authenticator.setPassword(password)
>> *)
Definition _fill_authenticator (authenticator : QAuthenticator)
    (answer : option (string * string)) : QAuthenticator :=
  match answer with
  | Some (user, password) =>
    setPassword password (setUser user authenticator)
  | None => authenticator
  end.

(** [NetworkManager.on_authentication_required].
<<
    answer = message.ask("Username ({}):".format(authenticator.realm()),
                         mode=usertypes.PromptMode.user_pwd)
    self._fill_authenticator(authenticator, answer)
>> *)
Definition on_authentication_required (ask : Ask)
    (authenticator : QAuthenticator) : QAuthenticator :=
  let answer := ask ("Username (" +:+ realm authenticator +:+ "):") user_pwd in
  _fill_authenticator authenticator answer.

(** [NetworkManager.on_proxy_authentication_required].
<<
    answer = message.ask("Proxy username ({}):".format(
        authenticator.realm()), mode=usertypes.PromptMode.user_pwd)
    self._fill_authenticator(authenticator, answer)
>> *)
Definition on_proxy_authentication_required (ask : Ask)
    (authenticator : QAuthenticator) : QAuthenticator :=
  let answer :=
    ask ("Proxy username (" +:+ realm authenticator +:+ "):") user_pwd in
  _fill_authenticator authenticator answer.

End authentication.

(** ** The events of a run *)

Module life.
Import cookies networkmanager.

(** What happens to a cookie jar between its construction and the end of the
    program, under one configuration. *)
Inductive jar_step `{QtCookies} (cfg : Config) : CookieJar -> CookieJar -> Prop :=
| jar_purge now jar :
    jar_step cfg jar (snd (purge_old_cookies now jar))
| jar_setCookiesFromUrl cookies url jar :
    jar_step cfg jar (snd (setCookiesFromUrl cfg cookies url jar))
| jar_save now jar :
    jar_step cfg jar (snd (save cfg now jar)).

Definition is_transport_call (c : Call) : bool :=
  match c with transport_createRequest _ _ _ => true | _ => false end.

Definition is_destroyed_connect (c : Call) : bool :=
  match c with destroyed_connect _ => true | _ => false end.

Definition is_msghandler_enter (c : Call) : bool :=
  match c with disable_qt_msghandler_enter => true | _ => false end.

Definition is_msghandler_exit (c : Call) : bool :=
  match c with disable_qt_msghandler_exit => true | _ => false end.

(** The calls on a jar that never reach the store: [setCookiesFromUrl]
    while the accept policy is "never", and [save] while persistence is
    off.  The configuration may change from call to call. *)
Inductive jar_idle_step `{QtCookies} : CookieJar -> CookieJar -> Prop :=
| idle_setCookiesFromUrl cfg cookies url jar :
    permissions_cookies_accept cfg = "never" ->
    jar_idle_step jar (snd (setCookiesFromUrl cfg cookies url jar))
| idle_save cfg now jar :
    permissions_cookies_store cfg = false ->
    jar_idle_step jar (snd (save cfg now jar)).

End life.

(** ** readline.py *)

Module readline.

(** The identity of a widget. *)
Definition WidgetId := nat.

(** A text is the list of the characters the cursor steps over. *)
Definition Text := list Ascii.ascii.

(** What [QApplication.instance().focusWidget()] returns, when it returns
    a widget: a [QLineEdit] or a widget of another class. *)
Inductive QWidget :=
| LineEdit (id : WidgetId)
| OtherWidget (id : WidgetId).

(** The methods of [QLineEdit] the bridge calls, on the state [W] of a line
    edit.  [cursorBackward] and [cursorForward] are called with one
    argument, so they move by one step. *)
Class QLineEditApi (W : Type) := {
  cursorBackward : bool -> W -> W;
  cursorForward : bool -> W -> W;
  cursorWordBackward : bool -> W -> W;
  cursorWordForward : bool -> W -> W;
  home : bool -> W -> W;
  end_ : bool -> W -> W;
  selectedText : W -> Text;
  del_ : W -> W;
  insert : Text -> W -> W;
  backspace : W -> W
}.

(** The bridge and the application it looks at: the attribute [deleted] (a
    dict keyed by the widget), the widget that has the focus, and the line
    edits. *)
Record State (W : Type) := {
  deleted : gmap WidgetId Text;
  focusWidget : option QWidget;
  lineEdits : WidgetId -> W
}.
Arguments deleted {W} _.
Arguments focusWidget {W} _.
Arguments lineEdits {W} _.

Section bridge.
Context {W : Type} `{QLineEditApi W}.

(** [ReadlineBridge.__init__], in an application. *)
Definition init (focus : option QWidget) (edits : WidgetId -> W) : State W :=
  {| deleted := ∅; focusWidget := focus; lineEdits := edits |}.

(** The property [ReadlineBridge.widget].
<<
    w = QApplication.instance().focusWidget()
    if isinstance(w, QLineEdit):
        return w
    else:
        return None
>> *)
Definition widget (s : State W) : option WidgetId :=
  match focusWidget s with
  | Some (LineEdit id) => Some id
  | _ => None
  end.

(** The line edits after the edit [w] changed to [e]. *)
Definition update (w : WidgetId) (e : W) (edits : WidgetId -> W)
  : WidgetId -> W :=
  fun w' => if decide (w' = w) then e else edits w'.

(** A method of the line edit [w] is called. *)
Definition on_widget (w : WidgetId) (method : W -> W) (s : State W) : State W :=
  {| deleted := deleted s;
     focusWidget := focusWidget s;
     lineEdits := update w (method (lineEdits s w)) (lineEdits s) |}.

(** [self.deleted[w] = text] *)
Definition set_deleted (w : WidgetId) (text : Text) (s : State W) : State W :=
  {| deleted := <[w := text]> (deleted s);
     focusWidget := focusWidget s;
     lineEdits := lineEdits s |}.

Definition rl_backward_char (s : State W) : State W :=
  match widget s with
  | None => s
  | Some w => on_widget w (cursorBackward false) s
  end.

Definition rl_forward_char (s : State W) : State W :=
  match widget s with
  | None => s
  | Some w => on_widget w (cursorForward false) s
  end.

Definition rl_backward_word (s : State W) : State W :=
  match widget s with
  | None => s
  | Some w => on_widget w (cursorWordBackward false) s
  end.

Definition rl_forward_word (s : State W) : State W :=
  match widget s with
  | None => s
  | Some w => on_widget w (cursorWordForward false) s
  end.

Definition rl_beginning_of_line (s : State W) : State W :=
  match widget s with
  | None => s
  | Some w => on_widget w (home false) s
  end.

Definition rl_end_of_line (s : State W) : State W :=
  match widget s with
  | None => s
  | Some w => on_widget w (end_ false) s
  end.

(** [ReadlineBridge.rl_unix_line_discard].
<<
    if self.widget is None:
        return
    self.widget.home(True)
    self.deleted[self.widget] = self.widget.selectedText()
    self.widget.del_()
>> *)
Definition rl_unix_line_discard (s : State W) : State W :=
  match widget s with
  | None => s
  | Some w =>
    let s := on_widget w (home true) s in
    let s := set_deleted w (selectedText (lineEdits s w)) s in
    on_widget w del_ s
  end.

(** [ReadlineBridge.rl_kill_line]: the same with [end(True)]. *)
Definition rl_kill_line (s : State W) : State W :=
  match widget s with
  | None => s
  | Some w =>
    let s := on_widget w (end_ true) s in
    let s := set_deleted w (selectedText (lineEdits s w)) s in
    on_widget w del_ s
  end.

(** [ReadlineBridge.rl_unix_word_rubout]: the same with
    [cursorWordBackward(True)]. *)
Definition rl_unix_word_rubout (s : State W) : State W :=
  match widget s with
  | None => s
  | Some w =>
    let s := on_widget w (cursorWordBackward true) s in
    let s := set_deleted w (selectedText (lineEdits s w)) s in
    on_widget w del_ s
  end.

(** [ReadlineBridge.rl_kill_word]: the same with [cursorWordForward(True)]. *)
Definition rl_kill_word (s : State W) : State W :=
  match widget s with
  | None => s
  | Some w =>
    let s := on_widget w (cursorWordForward true) s in
    let s := set_deleted w (selectedText (lineEdits s w)) s in
    on_widget w del_ s
  end.

(** [ReadlineBridge.rl_yank].
<<
    if self.widget is None or self.widget not in self.deleted:
        return
    self.widget.insert(self.deleted[self.widget])
>> *)
Definition rl_yank (s : State W) : State W :=
  match widget s with
  | None => s
  | Some w =>
    match deleted s !! w with
    | None => s
    | Some text => on_widget w (insert text) s
    end
  end.

Definition rl_delete_char (s : State W) : State W :=
  match widget s with
  | None => s
  | Some w => on_widget w del_ s
  end.

Definition rl_backward_delete_char (s : State W) : State W :=
  match widget s with
  | None => s
  | Some w => on_widget w backspace s
  end.

(** The commands of the bridge, by the names they are registered under. *)
Inductive Command :=
| backward_char | forward_char | backward_word | forward_word
| beginning_of_line | end_of_line
| unix_line_discard | kill_line | unix_word_rubout | kill_word
| yank | delete_char | backward_delete_char.

Definition run (c : Command) : State W -> State W :=
  match c with
  | backward_char => rl_backward_char
  | forward_char => rl_forward_char
  | backward_word => rl_backward_word
  | forward_word => rl_forward_word
  | beginning_of_line => rl_beginning_of_line
  | end_of_line => rl_end_of_line
  | unix_line_discard => rl_unix_line_discard
  | kill_line => rl_kill_line
  | unix_word_rubout => rl_unix_word_rubout
  | kill_word => rl_kill_word
  | yank => rl_yank
  | delete_char => rl_delete_char
  | backward_delete_char => rl_backward_delete_char
  end.

Definition is_kill (c : Command) : bool :=
  match c with
  | unix_line_discard | kill_line | unix_word_rubout | kill_word => true
  | _ => false
  end.

(** The focus moves to another widget (or to none). *)
Definition set_focus (focus : option QWidget) (s : State W) : State W :=
  {| deleted := deleted s; focusWidget := focus; lineEdits := lineEdits s |}.

(** What happens between two looks at the bridge: a command runs, or the
    focus moves. *)
Inductive step : State W -> State W -> Prop :=
| step_run c s : step s (run c s)
| step_focus focus s : step s (set_focus focus s).

End bridge.

(** *** A line edit

    The state of a [QLineEdit] that has no input mask and no validator, and
    what the methods above do to it, after Qt's line control: the text, the
    cursor, the selection (the characters from [selstart] up to [selend])
    and the maximal length. *)
Record QLineEdit := {
  text : Text;
  cursor : nat;
  selstart : nat;
  selend : nat;
  maxLength : nat
}.

Definition hasSelectedText (e : QLineEdit) : bool :=
  negb (Nat.eqb (length (text e)) 0) && (selstart e <? selend e)%nat.

Definition QLineEdit_selectedText (e : QLineEdit) : Text :=
  if hasSelectedText e
  then take (selend e - selstart e) (drop (selstart e) (text e))
  else [].

(** The cursor goes to [pos]; with [mark] the selection is extended from
    its other end (or started at the cursor), without it the selection is
    dropped. *)
Definition moveCursor (pos : nat) (mark : bool) (e : QLineEdit) : QLineEdit :=
  if mark then
    let anchor :=
      if (selstart e <? selend e)%nat && Nat.eqb (cursor e) (selstart e)
      then selend e
      else if (selstart e <? selend e)%nat && Nat.eqb (cursor e) (selend e)
      then selstart e
      else cursor e in
    {| text := text e; cursor := pos;
       selstart := Nat.min anchor pos; selend := Nat.max anchor pos;
       maxLength := maxLength e |}
  else
    {| text := text e; cursor := pos; selstart := 0; selend := 0;
       maxLength := maxLength e |}.

(** The selected text is removed; the cursor goes to where it began. *)
Definition removeSelectedText (e : QLineEdit) : QLineEdit :=
  if (selstart e <? selend e)%nat && (selend e <=? length (text e))%nat then
    {| text := take (selstart e) (text e) ++ drop (selend e) (text e);
       cursor := if (selstart e <? cursor e)%nat
                 then cursor e - (Nat.min (cursor e) (selend e) - selstart e)
                 else cursor e;
       selstart := 0; selend := 0;
       maxLength := maxLength e |}
  else e.

(** [del()]: the selected text if there is one, else the character to the
    right of the cursor. *)
Definition QLineEdit_del (e : QLineEdit) : QLineEdit :=
  if hasSelectedText e then removeSelectedText e
  else if (cursor e <? length (text e))%nat then
    {| text := take (cursor e) (text e) ++ drop (S (cursor e)) (text e);
       cursor := cursor e; selstart := selstart e; selend := selend e;
       maxLength := maxLength e |}
  else e.

(** [backspace()]: the selected text if there is one, else the character to
    the left of the cursor. *)
Definition QLineEdit_backspace (e : QLineEdit) : QLineEdit :=
  if hasSelectedText e then removeSelectedText e
  else if (0 <? cursor e)%nat then
    {| text := take (cursor e - 1) (text e) ++ drop (cursor e) (text e);
       cursor := cursor e - 1; selstart := selstart e; selend := selend e;
       maxLength := maxLength e |}
  else e.

(** [insert(new)]: the selected text is removed, then as much of [new] as
    the maximal length leaves room for is put in at the cursor, which ends
    behind it. *)
Definition QLineEdit_insert (new : Text) (e : QLineEdit) : QLineEdit :=
  let e := removeSelectedText e in
  let remaining := Z.of_nat (maxLength e) - Z.of_nat (length (text e)) in
  if remaining =? 0 then e
  else
    let new := if remaining <? 0 then new else take (Z.to_nat remaining) new in
    {| text := take (cursor e) (text e) ++ new ++ drop (cursor e) (text e);
       cursor := cursor e + length new;
       selstart := selstart e; selend := selend e;
       maxLength := maxLength e |}.

(** The line edit, given where Qt's text layout puts the cursor one word
    back and one word on. *)
Definition QLineEdit_api (previousWord nextWord : Text -> nat -> nat)
  : QLineEditApi QLineEdit :=
  {| cursorBackward mark e := moveCursor (cursor e - 1) mark e;
     cursorForward mark e :=
       moveCursor (Nat.min (S (cursor e)) (length (text e))) mark e;
     cursorWordBackward mark e :=
       moveCursor (previousWord (text e) (cursor e)) mark e;
     cursorWordForward mark e :=
       moveCursor (nextWord (text e) (cursor e)) mark e;
     home mark e := moveCursor 0 mark e;
     end_ mark e := moveCursor (length (text e)) mark e;
     selectedText := QLineEdit_selectedText;
     del_ := QLineEdit_del;
     insert := QLineEdit_insert;
     backspace := QLineEdit_backspace |}.

(** A line edit as it is between two commands: the cursor is within the
    text, the text within the maximal length, and a selection, if there is
    one, within the text. *)
Definition well_formed (e : QLineEdit) : Prop :=
  (cursor e <= length (text e))%nat /\
  (length (text e) <= maxLength e)%nat /\
  ((selstart e < selend e)%nat -> (selend e <= length (text e))%nat).

End readline.

(** ** tests/conftest.py: the hooks and the message mock *)

Module conftest.

(** What [item.add_marker] is given: the name of a marker, or the marker
    [pytest.mark.skipif(condition, reason=...)]. *)
Inductive Marker :=
| mark (name : string)
| skipif (condition : bool) (reason : string).

Definition marker_name (marker : Marker) : string :=
  match marker with
  | mark name => name
  | skipif _ _ => "skipif"
  end.

(** A collected test.  [is_Function] is [isinstance(item, item.Function)];
    [fixturenames] is [None] for an item that has no such attribute (a
    doctest, say); [keywords] holds the markers of the item by their
    names. *)
Record Item := {
  nodeid : string;
  is_Function : bool;
  fixturenames : option (list string);
  keywords : gmap string Marker
}.

(** [item.add_marker(marker)]: [self.keywords[marker.name] = marker]. *)
Definition add_marker (marker : Marker) (item : Item) : Item :=
  {| nodeid := nodeid item;
     is_Function := is_Function item;
     fixturenames := fixturenames item;
     keywords := <[marker_name marker := marker]> (keywords item) |}.

(** [item.get_marker(name)] *)
Definition get_marker (name : string) (item : Item) : option Marker :=
  keywords item !! name.

(** [item.get_marker(name)] where a truth value is asked for: a marker is
    true, [None] is false. *)
Definition marked (name : string) (item : Item) : bool :=
  bool_decide (is_Some (get_marker name item)).

(** The process the hooks run in: [os.name], [sys.platform], [sys.frozen]
    ([None] when [sys] has no such attribute) and [os.environ]. *)
Record Process := {
  os_name : string;
  sys_platform : string;
  sys_frozen : option bool;
  os_environ : gmap string string
}.

(** A hook returns, or leaves by [raise Exception(message)], or by
    [pytest.skip(message)]. *)
Inductive Outcome :=
| Returned
| RaisedException (message : string)
| Skipped (message : string).

(** ['qapp' in getattr(item, 'fixturenames', ())] *)
Definition uses_qapp (item : Item) : bool :=
  bool_decide ("qapp" ∈ default [] (fixturenames item)).

(** [sys.platform == 'linux' and not os.environ.get('DISPLAY', '')]: an
    empty string is false in Python. *)
Definition no_display (p : Process) : bool :=
  String.eqb (sys_platform p) "linux"
  && String.eqb (default "" (os_environ p !! "DISPLAY")) "".

(** ['CI' in os.environ] *)
Definition on_CI (p : Process) : bool :=
  bool_decide (is_Some (os_environ p !! "CI")).

(** The body of the loop of [pytest_collection_modifyitems], for one item.
<<
    if 'qapp' in getattr(item, 'fixturenames', ()):
        item.add_marker('gui')
        if sys.platform == 'linux' and not os.environ.get('DISPLAY', ''):
            if 'CI' in os.environ:
                raise Exception("No display available on CI!")
            skip_marker = pytest.mark.skipif(
                True, reason="No DISPLAY available")
            item.add_marker(skip_marker)
>> *)
Definition modify_item (p : Process) (item : Item) : Outcome * Item :=
  if uses_qapp item then
    let item := add_marker (mark "gui") item in
    if no_display p then
      if on_CI p then (RaisedException "No display available on CI!", item)
      else
        let skip_marker := skipif true "No DISPLAY available" in
        (Returned, add_marker skip_marker item)
    else (Returned, item)
  else (Returned, item).

(** [pytest_collection_modifyitems(items)]: the loop over the items, which
    are changed in place; an exception ends it and leaves the items as they
    are by then.  The items of a collection are distinct objects. *)
Fixpoint pytest_collection_modifyitems (p : Process) (items : list Item)
  : Outcome * list Item :=
  match items with
  | [] => (Returned, [])
  | item :: rest =>
    match modify_item p item with
    | (Returned, item') =>
      let (outcome, rest') := pytest_collection_modifyitems p rest in
      (outcome, item' :: rest')
    | (outcome, item') => (outcome, item' :: rest)
    end
  end.

(** [getattr(sys, 'frozen', False)] *)
Definition frozen (p : Process) : bool := default false (sys_frozen p).

(** [pytest_runtest_setup(item)].
<<
    if not isinstance(item, item.Function):
        return
    if item.get_marker('posix') and os.name != 'posix':
        pytest.skip("Requires a POSIX os.")
    elif item.get_marker('windows') and os.name != 'nt':
        pytest.skip("Requires Windows.")
    elif item.get_marker('linux') and not sys.platform.startswith('linux'):
        pytest.skip("Requires Linux.")
    elif item.get_marker('osx') and sys.platform != 'darwin':
        pytest.skip("Requires OS X.")
    elif item.get_marker('not_frozen') and getattr(sys, 'frozen', False):
        pytest.skip("Can't be run when frozen!")
    elif item.get_marker('frozen') and not getattr(sys, 'frozen', False):
        pytest.skip("Can only run when frozen!")
>> *)
Definition pytest_runtest_setup (p : Process) (item : Item) : Outcome :=
  if negb (is_Function item) then Returned
  else if marked "posix" item && negb (String.eqb (os_name p) "posix") then
    Skipped "Requires a POSIX os."
  else if marked "windows" item && negb (String.eqb (os_name p) "nt") then
    Skipped "Requires Windows."
  else if marked "linux" item && negb (String.prefix "linux" (sys_platform p))
  then Skipped "Requires Linux."
  else if marked "osx" item && negb (String.eqb (sys_platform p) "darwin") then
    Skipped "Requires OS X."
  else if marked "not_frozen" item && frozen p then
    Skipped "Can't be run when frozen!"
  else if marked "frozen" item && negb (frozen p) then
    Skipped "Can only run when frozen!"
  else Returned.

(** *** [MessageMock] *)

(** [usertypes.enum('Level', ('error', 'info', 'warning'))] *)
Inductive MessageLevel :=
| error
| info
| warning.

(** The namedtuple [Message]. *)
Record Message := {
  level : MessageLevel;
  win_id : Z;
  text : string;
  immediate : bool
}.

(** The mock: its list [messages].  (The monkeypatch fixture it keeps is
    used by [patch] only.) *)
Record MessageMock := {
  messages : list Message
}.

(** [MessageMock.__init__] *)
Definition MessageMock_init : MessageMock := {| messages := [] |}.

(** [MessageMock._handle]; a caller that leaves [immediately] out passes
    [False]. *)
Definition _handle (level : MessageLevel) (win_id : Z) (text : string)
    (immediately : bool) : Py MessageMock unit :=
  modify (fun self =>
    {| messages := messages self ++
         [{| level := level; win_id := win_id; text := text;
             immediate := immediately |}] |}).

Definition _handle_error : Z -> string -> bool -> Py MessageMock unit :=
  _handle error.

Definition _handle_info : Z -> string -> bool -> Py MessageMock unit :=
  _handle info.

Definition _handle_warning : Z -> string -> bool -> Py MessageMock unit :=
  _handle warning.

(** [MessageMock.getmsg].
<<
    if len(self.messages) != 1:
        raise ValueError("Got {} messages but expected a single "
                         "one.".format(len(self.messages)))
    return self.messages[0]
>> *)
Definition getmsg : Py MessageMock Message :=
  (msgs <- gets messages ;;
   match msgs with
   | [message] => ret message
   | _ => raise ValueError
   end)%py.

(** [MessageMock.patch]: what [message.error], [message.info] and
    [message.warning] of the patched module are afterwards.
<<
    self._monkeypatch.setattr(module_path + '.error', self._handle_error)
    self._monkeypatch.setattr(module_path + '.info', self._handle_info)
    self._monkeypatch.setattr(module_path + '.warning',
                              self._handle_warning)
>> *)
Definition patched (level : MessageLevel)
  : Z -> string -> bool -> Py MessageMock unit :=
  match level with
  | error => _handle_error
  | info => _handle_info
  | warning => _handle_warning
  end.

(** What a test does with the mock between two looks at it: the code under
    test calls [message.error], [message.info] or [message.warning] of a
    patched module, or the test calls [getmsg]. *)
Inductive mock_step : MessageMock -> MessageMock -> Prop :=
| step_message level win_id text immediately self :
    mock_step self (snd (patched level win_id text immediately self))
| step_getmsg self :
    mock_step self (snd (getmsg self)).

End conftest.

(** ** Inputs of further examples *)

Module more_examples.
Import cookies.

(** A stand-in for Qt that parses back the two lines it prints for the
    cookies of the examples. *)
#[local] Instance qt_known : QtCookies := {
  parseCookies line :=
    if String.eqb line "id=42" then [examples.fresh_cookie]
    else if String.eqb line "old=1" then [examples.old_cookie]
    else [];
  toRawForm c := name c +:+ "=" +:+ value c;
  super_setCookiesFromUrl cookies _ all :=
    (negb (Nat.eqb (length cookies) 0), all ++ cookies)
}.

(** Qt's [QNetworkCookieJar::insertCookie] at the time [now]: the cookie
    of the same name, domain and path is deleted, and the new cookie is
    put in unless it has expired. *)
Definition same_identifier (a b : QNetworkCookie) : bool :=
  String.eqb (name a) (name b) && String.eqb (domain a) (domain b)
  && String.eqb (path a) (path b).

Definition insertCookie (now : QDateTime)
    (state : bool * list QNetworkCookie) (cookie : QNetworkCookie)
  : bool * list QNetworkCookie :=
  let others :=
    List.filter (fun c => negb (same_identifier c cookie)) (snd state) in
  if isSessionCookie cookie || expirationDate_ge cookie now
  then (true, others ++ [cookie])
  else (fst state, others).

(** A stand-in for Qt whose base jar merges as Qt's does, for cookies of
    the URL's own domain, with the clock at 5000. *)
#[local] Instance qt_merge : QtCookies := {
  parseCookies line :=
    if String.eqb line "old=1; expires=1000" then [examples.old_cookie]
    else [];
  toRawForm c := name c +:+ "=" +:+ value c;
  super_setCookiesFromUrl cookies _ all :=
    fold_left (insertCookie 5000) cookies (false, all)
}.

(** The jar of the examples when the data directory cannot be written. *)
Definition jar0_read_only : CookieJar :=
  {| allCookies := allCookies examples.jar0;
     _linecp := LineConfigParser_read_only (_linecp examples.jar0) |}.

(** Cookies are accepted and kept in memory only. *)
Definition cfg_no_store : Config :=
  {| permissions_cookies_accept := "default";
     permissions_cookies_store := false;
     network_ssl_strict := false;
     network_do_not_track := true;
     network_accept_language := None |}.

Import authentication.

Definition authenticator0 : QAuthenticator :=
  {| realm := "intranet"; user := ""; password := "" |}.

(** A user who answers the site's prompt and cancels the proxy's. *)
Definition ask_site_only : Ask :=
  fun text _ =>
    if String.eqb text "Username (intranet):" then Some ("alice", "secret")
    else None.

Import readline.

Definition is_space (a : Ascii.ascii) : bool := Ascii.eqb a (Ascii.ascii_of_N 0x20).

(** The length of the longest prefix of characters that satisfy [p]. *)
Fixpoint span (p : Ascii.ascii -> bool) (l : Text) : nat :=
  match l with
  | a :: l' => if p a then S (span p l') else 0%nat
  | [] => 0%nat
  end.

(** A stand-in for the word motion of Qt's text layout: to the start of
    the next word, and back to the start of this or the previous word, for
    words that spaces separate. *)
Definition nextWord (t : Text) (c : nat) : nat :=
  let rest := drop c t in
  let word := span (fun a => negb (is_space a)) rest in
  (c + word + span is_space (drop word rest))%nat.

Definition previousWord (t : Text) (c : nat) : nat :=
  let before := rev (take c t) in
  let spaces := span is_space before in
  (c - (spaces + span (fun a => negb (is_space a)) (drop spaces before)))%nat.

Definition line_edit : QLineEditApi QLineEdit :=
  QLineEdit_api previousWord nextWord.

(** The command line holds "open example.org"; the cursor is behind
    "open ". *)
Definition edit0 : QLineEdit :=
  {| text := String.list_ascii_of_string "open example.org";
     cursor := 5; selstart := 0; selend := 0; maxLength := 64 |}.

(** The same with the cursor at the start, and at the end. *)
Definition edit_at_start : QLineEdit :=
  {| text := String.list_ascii_of_string "open example.org";
     cursor := 0; selstart := 0; selend := 0; maxLength := 64 |}.

Definition edit_at_end : QLineEdit :=
  {| text := String.list_ascii_of_string "open example.org";
     cursor := 16; selstart := 0; selend := 0; maxLength := 64 |}.

(** A bridge just made; line edit 1 has the focus. *)
Definition bridge_on (e : QLineEdit) : State QLineEdit :=
  init (Some (LineEdit 1%nat)) (fun _ => e).

(** The focus is on a widget that is not a line edit. *)
Definition bridge_elsewhere : State QLineEdit :=
  init (Some (OtherWidget 7%nat)) (fun _ => edit0).

(** A collection of four tests, and three processes: a desktop, a headless
    shell, a headless CI job. *)
Import conftest.

Definition test_window : Item :=
  {| nodeid := "test_window.py::test_show"; is_Function := true;
     fixturenames := Some ["qapp"; "tmpdir"]; keywords := ∅ |}.

Definition test_split : Item :=
  {| nodeid := "test_split.py::test_split"; is_Function := true;
     fixturenames := Some ["tmpdir"];
     keywords := {[ "posix" := mark "posix" ]} |}.

Definition test_doc : Item :=
  {| nodeid := "README.rst"; is_Function := false;
     fixturenames := None; keywords := ∅ |}.

Definition test_prompt : Item :=
  {| nodeid := "test_prompt.py::test_ask"; is_Function := true;
     fixturenames := Some ["qapp"]; keywords := ∅ |}.

(** A test marked for two systems at once. *)
Definition test_paths : Item :=
  {| nodeid := "test_paths.py::test_sep"; is_Function := true;
     fixturenames := Some [];
     keywords := {[ "posix" := mark "posix"; "windows" := mark "windows" ]} |}.

Definition collected : list Item :=
  [test_split; test_window; test_doc; test_prompt].

Definition desktop : Process :=
  {| os_name := "posix"; sys_platform := "linux"; sys_frozen := None;
     os_environ := {[ "DISPLAY" := ":0" ]} |}.

Definition headless : Process :=
  {| os_name := "posix"; sys_platform := "linux"; sys_frozen := None;
     os_environ := {[ "HOME" := "/root" ]} |}.

(** [DISPLAY] is set, to the empty string, and so is [CI]. *)
Definition headless_CI : Process :=
  {| os_name := "posix"; sys_platform := "linux"; sys_frozen := None;
     os_environ := {[ "DISPLAY" := "" ; "CI" := "" ]} |}.

Definition windows : Process :=
  {| os_name := "nt"; sys_platform := "win32"; sys_frozen := Some true;
     os_environ := ∅ |}.

End more_examples.

(** * Python values: examples *)

(** "e" with an acute accent is the two bytes C3 A9: well-formed UTF-8, not
    ASCII.  A lone FF, the overlong C0 80 and the surrogate ED A0 80 are
    not UTF-8. *)
Example utf8_valid_examples :
  utf8_valid [0xC3; 0xA9]%N = true /\
  utf8_valid [0xFF]%N = false /\
  utf8_valid [0xC0; 0x80]%N = false /\
  utf8_valid [0xED; 0xA0; 0x80]%N = false /\
  utf8_valid [0xF0; 0x9F; 0x8D; 0xAA]%N = true /\
  utf8_valid [0xE2; 0x82]%N = false.
Proof. repeat split. Qed.

Example encode_ascii_examples :
  encode_ascii "en-US,en" = Ok "en-US,en" /\
  encode_ascii "" = Ok "" /\
  encode_ascii (String (Ascii.ascii_of_N 0xC3)
                  (String (Ascii.ascii_of_N 0xA9) EmptyString))
  = Raise UnicodeEncodeError.
Proof. repeat split. Qed.

Example list_remove_examples :
  list_remove 2%nat [1; 2; 3; 2]%nat = Some [1; 3; 2]%nat /\
  list_remove 4%nat [1; 2; 3; 2]%nat = None.
Proof. split; reflexivity. Qed.

(** * Properties of the cookie jar *)

Section cookie_jar.
Import cookies.
Context `{QtCookies}.

(** The lines [save] collects: Python's loop, read as a comprehension. *)
Lemma save_loop_ok cookies lines :
  Forall (fun c => isSessionCookie c = false ->
                   utf8_valid (bytes_of (toRawForm c)) = true) cookies ->
  save_loop cookies lines =
  Ok (lines ++ List.map toRawForm
                 (List.filter (fun c => negb (isSessionCookie c)) cookies)).
Proof.
  intros Hall. revert lines.
  induction Hall as [|c cookies Hc _ IH]; intros lines; simpl.
  - by rewrite app_nil_r.
  - destruct (isSessionCookie c) eqn:Hs; simpl; [apply IH|].
    unfold decode_utf8. rewrite (Hc eq_refl), IH.
    by rewrite <- app_assoc.
Qed.

Lemma save_loop_raises cookies lines :
  Exists (fun c => isSessionCookie c = false /\
                   utf8_valid (bytes_of (toRawForm c)) = false) cookies ->
  save_loop cookies lines = Raise UnicodeDecodeError.
Proof.
  intros Hex. revert lines.
  induction cookies as [|c cookies IH]; intros lines.
  - by apply Exists_nil in Hex.
  - simpl. destruct (isSessionCookie c) eqn:Hs; simpl.
    + apply IH. apply Exists_cons in Hex as [[Hc _]|Hex]; [congruence|done].
    + unfold decode_utf8.
      destruct (utf8_valid (bytes_of (toRawForm c))) eqn:Hv; [|done].
      apply IH. apply Exists_cons in Hex as [[_ Hc]|Hex]; [congruence|done].
Qed.

Lemma init_loop_flat_map lines cookies :
  init_loop lines cookies = cookies ++ flat_map parseCookies lines.
Proof.
  revert cookies. induction lines as [|line lines IH]; intros cookies; simpl.
  - by rewrite app_nil_r.
  - by rewrite IH, <- app_assoc.
Qed.

Lemma kept_spec now c :
  kept now c = true <->
  expirationDate c = None \/ exists t, expirationDate c = Some t /\ now <= t.
Proof.
  unfold kept, isSessionCookie, expirationDate_ge.
  destruct (expirationDate c) as [t|]; simpl.
  - rewrite bool_decide_eq_true. split.
    + intros Ht. right. by exists t.
    + intros [?|(t' & [= <-] & Ht)]; done.
  - split; [by left|done].
Qed.

Lemma allCookies_purge now jar :
  allCookies (snd (purge_old_cookies now jar)) =
  List.filter (kept now) (allCookies jar).
Proof. reflexivity. Qed.

(** [save] with persistence on, path by path: the loop raises and nothing
    is assigned; or the lines are assigned to [data] and the write
    succeeds; or they are assigned and the write fails. *)
Lemma save_on cfg now jar :
  permissions_cookies_store cfg = true ->
  save cfg now jar =
  let purged := List.filter (kept now) (allCookies jar) in
  match save_loop purged [] with
  | Raise e => (Raise e, {| allCookies := purged; _linecp := _linecp jar |})
  | Ok lines =>
    if writable (_linecp jar)
    then (Ok tt,
          {| allCookies := purged;
             _linecp := {| data := lines; file := lines;
                           writable := true |} |})
    else (Raise OSError,
          {| allCookies := purged;
             _linecp := {| data := lines; file := file (_linecp jar);
                           writable := false |} |})
  end.
Proof.
  intros Hon. unfold save. rewrite Hon. simpl.
  unfold bind, lift, gets, purge_old_cookies, bind, gets, setAllCookies,
    set_linecp, modify. simpl.
  destruct (save_loop _ _) as [lines|e]; simpl; [|done].
  unfold LineConfigParser_save, LineConfigParser_set_data. simpl.
  by destruct (writable (_linecp jar)).
Qed.

Lemma save_off cfg now jar :
  permissions_cookies_store cfg = false -> save cfg now jar = (Ok tt, jar).
Proof. intros Hoff. unfold save. by rewrite Hoff. Qed.

(** The non-session cookies are all well-formed UTF-8, or one is not. *)
Lemma save_loop_persistent cookies :
  let persistent :=
    List.filter (fun c => negb (isSessionCookie c)) cookies in
  (Forall (fun c => utf8_valid (bytes_of (toRawForm c)) = true) persistent ->
   save_loop cookies [] = Ok (List.map toRawForm persistent)) /\
  (Exists (fun c => utf8_valid (bytes_of (toRawForm c)) = false) persistent ->
   save_loop cookies [] = Raise UnicodeDecodeError).
Proof.
  intros persistent. split.
  - intros Hall. rewrite (save_loop_ok cookies []); [done|].
    apply Forall_forall. intros c Hc Hs.
    rewrite Forall_forall in Hall. apply Hall.
    apply list_elem_of_In, filter_In. split; [by apply list_elem_of_In|].
    by rewrite Hs.
  - intros Hex. apply save_loop_raises.
    apply Exists_exists in Hex as (c & Hc & Hbad).
    apply list_elem_of_In, filter_In in Hc as [Hc Hs].
    apply Exists_exists. exists c. split; [by apply list_elem_of_In|].
    split; [|done]. by destruct (isSessionCookie c).
Qed.

End cookie_jar.

(** C5.  Under the accept policy "never", [setCookiesFromUrl] answers
    [False] and leaves the jar as it was, whatever the cookies (an empty
    list or not) and the URL: nothing is added, replaced or removed. *)
Theorem setCookiesFromUrl_never `{cookies.QtCookies}
    (cfg : Config) (cs : list cookies.QNetworkCookie) (url : cookies.QUrl)
    (jar : cookies.CookieJar) :
  permissions_cookies_accept cfg = "never" ->
  cookies.setCookiesFromUrl cfg cs url jar = (Ok false, jar).
Proof.
  intros Hnever. unfold cookies.setCookiesFromUrl.
  by rewrite Hnever.
Qed.

Lemma setCookiesFromUrl_never_witness :
  permissions_cookies_accept examples.never_cfg = "never" /\
  cookies.setCookiesFromUrl (H := examples.qt_stub) examples.never_cfg
    [examples.fresh_cookie] "http://example.com/" examples.jar0
  = (Ok false, examples.jar0).
Proof.
  split; [reflexivity|].
  apply (setCookiesFromUrl_never (H := examples.qt_stub)). reflexivity.
Defined.

(** With any other policy the base class decides: the method is not a
    constant refusal. *)
Example setCookiesFromUrl_default_accepts :
  cookies.setCookiesFromUrl (H := examples.qt_stub)
    {| permissions_cookies_accept := "default";
       permissions_cookies_store := true;
       network_ssl_strict := false;
       network_do_not_track := true;
       network_accept_language := None |}
    [examples.fresh_cookie] "http://example.com/"
    {| cookies.allCookies := [];
       cookies._linecp := cookies.LineConfigParser_open [] |}
  = (Ok true,
     {| cookies.allCookies := [examples.fresh_cookie];
        cookies._linecp := cookies.LineConfigParser_open [] |}).
Proof. reflexivity. Qed.

(** C7.  [purge_old_cookies] at time [now] keeps the jar's cookies in
    their order except exactly those that are not session cookies and
    whose expiry is strictly before [now]: it does not raise, it leaves the
    line parser alone, no remaining cookie has an expiry before [now], every
    session cookie stays and every cookie expiring at [now] or later stays,
    each as often as it was in the jar. *)
Theorem purge_old_cookies_exact (now : cookies.QDateTime)
    (jar : cookies.CookieJar) :
  fst (cookies.purge_old_cookies now jar) = Ok tt /\
  cookies._linecp (snd (cookies.purge_old_cookies now jar))
    = cookies._linecp jar /\
  (forall c,
     c ∈ cookies.allCookies (snd (cookies.purge_old_cookies now jar)) <->
     c ∈ cookies.allCookies jar /\
     ~ (cookies.isSessionCookie c = false /\
        exists t, cookies.expirationDate c = Some t /\ t < now)) /\
  (forall c t,
     c ∈ cookies.allCookies (snd (cookies.purge_old_cookies now jar)) ->
     cookies.expirationDate c = Some t -> now <= t) /\
  (forall c,
     c ∈ cookies.allCookies jar -> cookies.isSessionCookie c = true ->
     c ∈ cookies.allCookies (snd (cookies.purge_old_cookies now jar))) /\
  (forall c t,
     c ∈ cookies.allCookies jar -> cookies.expirationDate c = Some t ->
     now <= t ->
     c ∈ cookies.allCookies (snd (cookies.purge_old_cookies now jar))) /\
  cookies.allCookies (snd (cookies.purge_old_cookies now jar))
    `sublist_of` cookies.allCookies jar /\
  cookies.allCookies (snd (cookies.purge_old_cookies now jar))
    = List.filter
        (fun c => match cookies.expirationDate c with
                  | Some t => bool_decide (now <= t)
                  | None => true
                  end)
        (cookies.allCookies jar).
Proof.
  assert (Hin : forall c,
    c ∈ cookies.allCookies (snd (cookies.purge_old_cookies now jar)) <->
    c ∈ cookies.allCookies jar /\ cookies.kept now c = true).
  { intros c. rewrite allCookies_purge, !list_elem_of_In. apply filter_In. }
  split_and!.
  - reflexivity.
  - reflexivity.
  - intros c. rewrite Hin. split; intros [Hc Hk]; (split; [done|]).
    + intros (Hs & t & Ht & Hlt).
      apply kept_spec in Hk as [Hn|(t' & Ht' & Hle)]; [congruence|].
      assert (t' = t) by congruence. lia.
    + apply kept_spec. unfold cookies.isSessionCookie in Hk.
      destruct (cookies.expirationDate c) as [t|] eqn:Ht; [|by left].
      right. exists t. split; [done|].
      destruct (decide (now <= t)); [done|].
      exfalso. apply Hk. split; [done|]. exists t. split; [done|lia].
  - intros c t Hc Ht. apply Hin in Hc as [_ Hk].
    apply kept_spec in Hk as [Hn|(t' & Ht' & Hle)]; [congruence|].
    assert (t' = t) by congruence. lia.
  - intros c Hc Hs. apply Hin. split; [done|].
    unfold cookies.kept. by rewrite Hs.
  - intros c t Hc Ht Hle. apply Hin. split; [done|].
    apply kept_spec. right. by exists t.
  - rewrite allCookies_purge.
    clear Hin.
    induction (cookies.allCookies jar) as [|c l IH]; simpl.
    + apply sublist_nil.
    + destruct (cookies.kept now c);
        [apply sublist_skip|apply sublist_cons]; exact IH.
  - rewrite allCookies_purge. apply List.filter_ext. intros c.
    unfold cookies.kept, cookies.isSessionCookie, cookies.expirationDate_ge.
    by destruct (cookies.expirationDate c).
Qed.

Lemma purge_old_cookies_exact_witness :
  examples.session_cookie
    ∈ cookies.allCookies (snd (cookies.purge_old_cookies 5000 examples.jar0)) /\
  examples.fresh_cookie
    ∈ cookies.allCookies (snd (cookies.purge_old_cookies 5000 examples.jar0)) /\
  examples.old_cookie
    ∉ cookies.allCookies (snd (cookies.purge_old_cookies 5000 examples.jar0)).
Proof.
  destruct (purge_old_cookies_exact 5000 examples.jar0)
    as (_ & _ & Hexact & _ & Hsession & Hvalid & _).
  split_and!.
  - apply Hsession; [|reflexivity].
    apply list_elem_of_In. simpl. auto.
  - apply (Hvalid _ 9000); [|reflexivity|lia].
    apply list_elem_of_In. simpl. auto.
  - intros Hold. apply Hexact in Hold as [_ Hnot]. apply Hnot.
    split; [reflexivity|]. exists 1000. split; [reflexivity|lia].
Defined.

(** The purge on a jar of three: the cookie that expired goes, the
    session cookie and the one still valid stay. *)
Example purge_old_cookies_jar0 :
  cookies.allCookies (snd (cookies.purge_old_cookies 5000 examples.jar0))
  = [examples.session_cookie; examples.fresh_cookie].
Proof. reflexivity. Qed.

(** A cookie that expires exactly at [now] is kept: the bound is strict. *)
Example purge_old_cookies_at_expiry :
  cookies.allCookies (snd (cookies.purge_old_cookies 1000 examples.jar0))
  = [examples.old_cookie; examples.session_cookie; examples.fresh_cookie].
Proof. reflexivity. Qed.

(** C10, as stated, fails: a cookie that expired before the load can leave
    the store with neither [purge_old_cookies] nor [save] called.  The jar
    is built from a file with an expired cookie; the site sends that cookie
    again, and a base jar that merges as Qt's does deletes the cookie of
    the same name, domain and path and puts nothing in its place. *)
Lemma loaded_cookie_leaves_without_purge :
  cookies.allCookies
    (cookies.init (H := more_examples.qt_merge) ["old=1; expires=1000"])
  = [examples.old_cookie] /\
  cookies.kept 5000 examples.old_cookie = false /\
  cookies.setCookiesFromUrl (H := more_examples.qt_merge) examples.cfg
    [examples.old_cookie] "http://example.com/"
    (cookies.init (H := more_examples.qt_merge) ["old=1; expires=1000"])
  = (Ok false,
     {| cookies.allCookies := [];
        cookies._linecp :=
          cookies.LineConfigParser_open ["old=1; expires=1000"] |}).
Proof. split_and!; reflexivity. Qed.

Lemma jar_idle_step_eq `{cookies.QtCookies} (jar jar' : cookies.CookieJar) :
  life.jar_idle_step jar jar' -> jar' = jar.
Proof.
  intros [cfg cs url j Hnever|cfg now j Hoff].
  - unfold cookies.setCookiesFromUrl. by rewrite Hnever.
  - unfold cookies.save. by rewrite Hoff.
Qed.

Lemma jar_idle_run_eq `{cookies.QtCookies} (jar jar' : cookies.CookieJar) :
  rtc life.jar_idle_step jar jar' -> jar' = jar.
Proof.
  induction 1 as [j|j mid j' Hstep _ IH]; [done|].
  rewrite IH. by apply jar_idle_step_eq.
Qed.

(** C10, as the code has it.  Building the jar from the persisted file
    purges nothing: the store holds the cookies parsed from the lines,
    every one of them and in the file's order, whatever their expiry.  A
    cookie that expired before the load stays in [allCookies()] through
    every [setCookiesFromUrl] under the policy "never" and every [save]
    with persistence off; [purge_old_cookies] filters the store, and so
    does [save] with persistence on, whether it returns or raises; and
    under any other accept policy [setCookiesFromUrl] leaves in the store
    what the base class's merge makes of it. *)
Theorem init_purges_nothing `{cookies.QtCookies} (on_disk : list string) :
  cookies.allCookies (cookies.init on_disk)
    = flat_map cookies.parseCookies on_disk /\
  (forall line c,
     line ∈ on_disk -> c ∈ cookies.parseCookies line ->
     c ∈ cookies.allCookies (cookies.init on_disk)) /\
  (forall now,
     cookies.allCookies
       (snd (cookies.purge_old_cookies now (cookies.init on_disk)))
     = List.filter (cookies.kept now)
         (flat_map cookies.parseCookies on_disk)) /\
  (forall jar,
     rtc life.jar_idle_step (cookies.init on_disk) jar ->
     cookies.allCookies jar = flat_map cookies.parseCookies on_disk) /\
  (forall cfg now,
     permissions_cookies_store cfg = true ->
     cookies.allCookies (snd (cookies.save cfg now (cookies.init on_disk)))
     = List.filter (cookies.kept now)
         (flat_map cookies.parseCookies on_disk)) /\
  (forall cfg cs url,
     permissions_cookies_accept cfg <> "never" ->
     cookies.allCookies
       (snd (cookies.setCookiesFromUrl cfg cs url (cookies.init on_disk)))
     = snd (cookies.super_setCookiesFromUrl cs url
              (flat_map cookies.parseCookies on_disk))).
Proof.
  assert (Hall : cookies.allCookies (cookies.init on_disk)
                 = flat_map cookies.parseCookies on_disk).
  { unfold cookies.init. simpl. by rewrite init_loop_flat_map. }
  split_and!; [done|..].
  - intros line c Hline Hc. rewrite Hall, list_elem_of_In.
    apply in_flat_map. exists line. by rewrite <- !list_elem_of_In.
  - intros now. by rewrite allCookies_purge, Hall.
  - intros jar Hrun. by rewrite (jar_idle_run_eq _ _ Hrun).
  - intros cfg now Hon. rewrite (save_on cfg now _ Hon). cbv zeta.
    rewrite Hall.
    destruct (cookies.save_loop _ _) as [lines|e]; [|done].
    by destruct (cookies.writable _).
  - intros cfg cs url Hpolicy. unfold cookies.setCookiesFromUrl.
    destruct (String.eqb_spec (permissions_cookies_accept cfg) "never")
      as [Hnever|_]; [done|].
    unfold bind at 1, gets at 1. cbv beta iota. rewrite Hall.
    by destruct (cookies.super_setCookiesFromUrl cs url _).
Qed.

(** A file with a cookie that expired at 1000: the cookie is in the store
    after the load, and still there after a refused [setCookiesFromUrl]
    and a [save] with persistence off. *)
Lemma init_purges_nothing_witness :
  cookies.kept 5000 examples.old_cookie = false /\
  examples.old_cookie
    ∈ cookies.allCookies
        (cookies.init (H := examples.qt_stub) ["old=1; expires=1000"]) /\
  cookies.allCookies
    (snd (cookies.save (H := examples.qt_stub) more_examples.cfg_no_store 5000
            (snd (cookies.setCookiesFromUrl (H := examples.qt_stub)
                    examples.never_cfg [examples.fresh_cookie]
                    "http://example.com/"
                    (cookies.init (H := examples.qt_stub)
                       ["old=1; expires=1000"])))))
  = [examples.old_cookie].
Proof.
  split; [reflexivity|].
  destruct (init_purges_nothing (H := examples.qt_stub)
              ["old=1; expires=1000"]) as (_ & Hall & _ & Hidle & _).
  split.
  - apply (Hall "old=1; expires=1000").
    + apply list_elem_of_In. simpl. auto.
    + apply list_elem_of_In. simpl. auto.
  - apply Hidle.
    eapply rtc_l;
      [apply (life.idle_setCookiesFromUrl examples.never_cfg); reflexivity|].
    eapply rtc_l;
      [apply (life.idle_save more_examples.cfg_no_store); reflexivity|].
    apply rtc_refl.
Defined.

(** A file with a cookie that expired at 1000, loaded at 5000: the cookie
    is in the store after the load and gone after the purge. *)
Example init_keeps_expired_cookie :
  let jar := cookies.init (H := examples.qt_stub) ["old=1; expires=1000"] in
  cookies.allCookies jar = [examples.old_cookie] /\
  cookies.kept 5000 examples.old_cookie = false /\
  cookies.allCookies (snd (cookies.purge_old_cookies 5000 jar)) = [].
Proof. repeat split. Qed.

(** C6, what the code does.  [save] does nothing when
    ('permissions', 'cookies-store') is off: jar and file stay as they
    were.  When it is on, [save] first purges the expired cookies.  Then,
    if the raw form of every non-session cookie left is valid UTF-8 and
    the file can be written, exactly these cookies are written, one line
    each, in the jar's order.  If one of them is not valid UTF-8, [save]
    raises [UnicodeDecodeError] and writes nothing, the other cookies
    neither: the file keeps its old content.  If the file cannot be
    written, the I/O error of the write is raised and the file is as it
    was.  A session cookie is never among the lines, and every session
    cookie of the jar is still in [allCookies()] on each path. *)
Theorem save_persists_or_raises `{cookies.QtCookies}
    (cfg : Config) (now : cookies.QDateTime) (jar : cookies.CookieJar) :
  (permissions_cookies_store cfg = false ->
   cookies.save cfg now jar = (Ok tt, jar)) /\
  (permissions_cookies_store cfg = true ->
   let purged := List.filter (cookies.kept now) (cookies.allCookies jar) in
   let persistent :=
     List.filter (fun c => negb (cookies.isSessionCookie c)) purged in
   let lines := List.map cookies.toRawForm persistent in
   (Forall (fun c => utf8_valid (bytes_of (cookies.toRawForm c)) = true)
      persistent ->
    cookies.writable (cookies._linecp jar) = true ->
    cookies.save cfg now jar =
      (Ok tt,
       {| cookies.allCookies := purged;
          cookies._linecp :=
            {| cookies.data := lines; cookies.file := lines;
               cookies.writable := true |} |})) /\
   (Exists (fun c => utf8_valid (bytes_of (cookies.toRawForm c)) = false)
      persistent ->
    cookies.save cfg now jar =
      (Raise UnicodeDecodeError,
       {| cookies.allCookies := purged;
          cookies._linecp := cookies._linecp jar |})) /\
   (Forall (fun c => utf8_valid (bytes_of (cookies.toRawForm c)) = true)
      persistent ->
    cookies.writable (cookies._linecp jar) = false ->
    cookies.save cfg now jar =
      (Raise OSError,
       {| cookies.allCookies := purged;
          cookies._linecp :=
            {| cookies.data := lines;
               cookies.file := cookies.file (cookies._linecp jar);
               cookies.writable := false |} |})) /\
   length lines = length persistent /\
   Forall (fun c => cookies.isSessionCookie c = false) persistent /\
   (forall c, c ∈ cookies.allCookies jar ->
              cookies.isSessionCookie c = true ->
              c ∈ cookies.allCookies (snd (cookies.save cfg now jar)))).
Proof.
  split; [apply save_off|].
  intros Hon purged persistent lines.
  pose proof (save_on cfg now jar Hon) as Hsave. cbv zeta in Hsave.
  fold purged in Hsave.
  destruct (save_loop_persistent purged) as [Hvalid Hbad].
  fold persistent in Hvalid, Hbad.
  split_and!.
  - intros Hutf8 Hw. by rewrite Hsave, (Hvalid Hutf8), Hw.
  - intros Hex. by rewrite Hsave, (Hbad Hex).
  - intros Hutf8 Hw. by rewrite Hsave, (Hvalid Hutf8), Hw.
  - apply length_map.
  - apply Forall_forall. intros c Hc.
    apply list_elem_of_In, filter_In in Hc as [_ Hs].
    by destruct (cookies.isSessionCookie c).
  - intros c Hc Hs.
    assert (Hkept : c ∈ purged).
    { apply list_elem_of_In, filter_In. split; [by apply list_elem_of_In|].
      unfold cookies.kept. by rewrite Hs. }
    rewrite Hsave.
    destruct (cookies.save_loop purged []) as [ls|e]; [|done].
    by destruct (cookies.writable (cookies._linecp jar)).
Qed.

(** The failing input.  Persistence is on and the jar's only cookie is
    persistent and not expired, but its value is the byte 0xFF, as a
    server may send it: [save] raises [UnicodeDecodeError] and the file
    keeps its old content instead of the cookie's line. *)
Lemma save_non_utf8_cookie_not_written :
  permissions_cookies_store examples.never_cfg = true /\
  cookies.isSessionCookie examples.latin1_cookie = false /\
  cookies.kept 5000 examples.latin1_cookie = true /\
  cookies.save (H := examples.qt_stub) examples.never_cfg 5000
    examples.latin1_jar
  = (Raise UnicodeDecodeError, examples.latin1_jar) /\
  cookies.file (cookies._linecp
    (snd (cookies.save (H := examples.qt_stub) examples.never_cfg 5000
            examples.latin1_jar)))
    <> [cookies.toRawForm (QtCookies := examples.qt_stub)
          examples.latin1_cookie].
Proof.
  destruct (save_persists_or_raises (H := examples.qt_stub)
              examples.never_cfg 5000 examples.latin1_jar) as [_ Hon].
  pose proof (Hon eq_refl) as Hpaths. cbv zeta in Hpaths.
  destruct Hpaths as (_ & Hraise & _).
  do 3 (split; [reflexivity|]).
  rewrite Hraise by (apply Exists_cons_hd; reflexivity).
  split; [reflexivity|]. simpl. done.
Defined.

(** The path the claim describes, on a jar of three: the expired cookie is
    purged, the session cookie stays in memory and one line is written. *)
Example save_jar0 :
  cookies.save (H := examples.qt_stub) examples.never_cfg 5000 examples.jar0
  = (Ok tt,
     {| cookies.allCookies := [examples.session_cookie; examples.fresh_cookie];
        cookies._linecp := cookies.LineConfigParser_open ["id=42"] |}).
Proof. reflexivity. Qed.

(** The scenario of the design document: the only cookie is a session
    cookie; [save] writes an empty file and the cookie is still in the jar. *)
Example save_session_cookie_only :
  cookies.save (H := examples.qt_stub) examples.never_cfg 5000
    {| cookies.allCookies := [examples.session_cookie];
       cookies._linecp := cookies.LineConfigParser_open [] |}
  = (Ok tt,
     {| cookies.allCookies := [examples.session_cookie];
        cookies._linecp := cookies.LineConfigParser_open [] |}).
Proof. reflexivity. Qed.

(** [save] with a cookie whose raw form is not valid UTF-8: the purge is
    done, [decode('utf-8')] raises and the file is not written. *)
Lemma save_raises_UnicodeDecodeError `{cookies.QtCookies}
    (cfg : Config) (now : cookies.QDateTime) (jar : cookies.CookieJar)
    (c : cookies.QNetworkCookie) :
  permissions_cookies_store cfg = true ->
  c ∈ cookies.allCookies jar ->
  cookies.kept now c = true ->
  cookies.isSessionCookie c = false ->
  utf8_valid (bytes_of (cookies.toRawForm c)) = false ->
  cookies.save cfg now jar
  = (Raise UnicodeDecodeError, snd (cookies.purge_old_cookies now jar)).
Proof.
  intros Hon Hc Hk Hs Hbad. unfold cookies.save. rewrite Hon. simpl.
  unfold bind, lift, gets, cookies.purge_old_cookies, bind, gets,
    cookies.setAllCookies, modify. simpl.
  rewrite save_loop_raises; [done|].
  apply Exists_exists. exists c. split; [|done].
  apply list_elem_of_In, filter_In. split; [by apply list_elem_of_In|done].
Qed.

Lemma save_raises_UnicodeDecodeError_witness :
  cookies.save (H := examples.qt_stub) examples.never_cfg 5000
    examples.latin1_jar
  = (Raise UnicodeDecodeError, examples.latin1_jar).
Proof.
  apply (save_raises_UnicodeDecodeError (H := examples.qt_stub)
           examples.never_cfg 5000 examples.latin1_jar examples.latin1_cookie);
    try reflexivity.
  apply list_elem_of_In. simpl. auto.
Defined.

(** * Properties of the network manager *)

Section network_manager.
Import networkmanager.

Lemma find_app {A} (f : A -> bool) (l1 l2 : list A) :
  List.find f (l1 ++ l2) =
  match List.find f l1 with
  | Some x => Some x
  | None => List.find f l2
  end.
Proof.
  induction l1 as [|x l1 IH]; simpl; [done|].
  by destruct (f x).
Qed.

Lemma find_filter_none {A} (f g : A -> bool) (l : list A) :
  (forall x, f x = true -> g x = false) ->
  List.find f (List.filter g l) = None.
Proof.
  intros Hfg. induction l as [|x l IH]; simpl; [done|].
  destruct (g x) eqn:Hg; [|done]. simpl.
  destruct (f x) eqn:Hf; [|done].
  apply Hfg in Hf. congruence.
Qed.

Lemma find_filter_same {A} (f g : A -> bool) (l : list A) :
  (forall x, f x = true -> g x = true) ->
  List.find f (List.filter g l) = List.find f l.
Proof.
  intros Hfg. induction l as [|x l IH]; simpl; [done|].
  destruct (f x) eqn:Hf.
  - rewrite (Hfg x Hf). simpl. by rewrite Hf.
  - destruct (g x); simpl; [by rewrite Hf|done].
Qed.



Lemma same_header_refl key : same_header key key = true.
Proof. apply String.eqb_refl. Qed.

Lemma same_header_other h key key' :
  same_header key' key = false ->
  same_header h key = true -> negb (same_header h key') = true.
Proof.
  unfold same_header. intros Hne Hh.
  apply String.eqb_neq in Hne. apply String.eqb_eq in Hh.
  apply negb_true_iff, String.eqb_neq. congruence.
Qed.

Lemma same_header_both h key key' :
  same_header key' key = true ->
  same_header h key = true -> negb (same_header h key') = false.
Proof.
  unfold same_header. intros He Hh.
  apply String.eqb_eq in He. apply String.eqb_eq in Hh.
  apply negb_false_iff, String.eqb_eq. congruence.
Qed.

(** After [setRawHeader] the header reads as the value set, under any
    spelling of its name. *)
Lemma rawHeader_setRawHeader key key' value req :
  same_header key' key = true ->
  rawHeader key (setRawHeader key' value req) = Some value.
Proof.
  intros Hsame. unfold rawHeader, setRawHeader. simpl.
  rewrite find_app, find_filter_none.
  - simpl. by rewrite Hsame.
  - intros h. simpl. by apply same_header_both.
Qed.

(** ... and a header of another name reads as before. *)
Lemma rawHeader_setRawHeader_other key key' value req :
  same_header key' key = false ->
  rawHeader key (setRawHeader key' value req) = rawHeader key req.
Proof.
  intros Hother. unfold rawHeader, setRawHeader. simpl.
  rewrite find_app, find_filter_same.
  - simpl. rewrite Hother. by destruct (List.find _ _).
  - intros h. simpl. by apply same_header_other.
Qed.



Lemma with_calls_nil nm : with_calls [] nm = nm.
Proof. destruct nm. unfold with_calls. simpl. by rewrite app_nil_r. Qed.

Lemma with_calls_app cs1 cs2 nm :
  with_calls cs2 (with_calls cs1 nm) = with_calls (cs1 ++ cs2) nm.
Proof. unfold with_calls. simpl. by rewrite app_assoc. Qed.

(** A loop whose body only makes calls makes the calls of every round, in
    order. *)
Lemma for_each_calls {A} (xs : list A) (body : A -> Py NetworkManager unit)
    (made : A -> list Call) nm :
  (forall x nm, body x nm = (Ok tt, with_calls (made x) nm)) ->
  for_each xs body nm = (Ok tt, with_calls (flat_map made xs) nm).
Proof.
  intros Hbody. revert nm.
  induction xs as [|x xs IH]; intros nm; simpl.
  - by rewrite with_calls_nil.
  - unfold bind. rewrite Hbody, IH. by rewrite with_calls_app.
Qed.

(** [createRequest] on the path to the transport: the scheme is not an
    https that Qt cannot serve, no handler is registered for it, and the
    accept-language, if there is one, is ASCII. *)
Lemma createRequest_transport_path env op req outgoing_data nm :
  ~ (scheme (url req) = "https" /\ SSL_AVAILABLE env = false) ->
  _scheme_handlers nm !! scheme (url req) = None ->
  (forall al, network_accept_language (config env) = Some al ->
              encode_ascii al = Ok al) ->
  let dnt := if network_do_not_track (config env) then "1" else "0" in
  let req1 := setRawHeader "X-Do-Not-Track" dnt (setRawHeader "DNT" dnt req) in
  let req' := match network_accept_language (config env) with
              | Some al => setRawHeader "Accept-Language" al req1
              | None => req1
              end in
  let reply :=
    NetworkReply (next_obj nm) (networkAccessible nm) op req' outgoing_data in
  let made :=
    (if PYQT_VERSION env <? 0x050301
     then [disable_qt_msghandler_enter;
           transport_createRequest op req' outgoing_data;
           disable_qt_msghandler_exit]
     else [transport_createRequest op req' outgoing_data])
    ++ [destroyed_connect reply] in
  createRequest env op req outgoing_data nm =
  (Ok (reply, req'),
   with_calls made
     (with_requests (_requests nm ++ [reply])
        (with_next_obj (S (next_obj nm)) nm))).
Proof.
  intros Hssl Hnone Hascii dnt req1 req' reply made.
  unfold createRequest.
  assert (Hguard : String.eqb (scheme (url req)) "https"
                   && negb (SSL_AVAILABLE env) = false).
  { destruct (String.eqb_spec (scheme (url req)) "https") as [Hs|Hs];
      [|done].
    destruct (SSL_AVAILABLE env) eqn:Ha; [done|].
    exfalso. by apply Hssl. }
  rewrite Hguard. unfold bind at 1, gets at 1. cbv beta iota.
  rewrite Hnone. subst made reply req' req1 dnt.
  destruct (network_accept_language (config env)) as [al|] eqn:Hal.
  - unfold bind at 1. unfold bind at 1. unfold lift.
    rewrite (Hascii al eq_refl). cbv beta iota.
    destruct (PYQT_VERSION env <? 0x050301); destruct nm;
      unfold bind, ret, gets, call, set_requests, modify,
        super_createRequest, fresh_obj, bind, ret, gets, call, modify,
        with_calls, with_requests, with_next_obj; simpl;
      by rewrite <- ?app_assoc.
  - destruct (PYQT_VERSION env <? 0x050301); destruct nm;
      unfold bind, ret, gets, call, set_requests, modify,
        super_createRequest, fresh_obj, bind, ret, gets, call, modify,
        with_calls, with_requests, with_next_obj; simpl;
      by rewrite <- ?app_assoc.
Qed.

(** The two paths of [createRequest] that return before the header policy. *)
Lemma createRequest_ssl_unavailable env op req outgoing_data nm :
  scheme (url req) = "https" ->
  SSL_AVAILABLE env = false ->
  createRequest env op req outgoing_data nm =
  (Ok (ErrorNetworkReply req
         "SSL is not supported by the installed Qt library!"
         ProtocolUnknownError, req), nm).
Proof.
  intros Hs Ha. unfold createRequest. by rewrite Hs, Ha.
Qed.

Lemma createRequest_scheme_handler env op req outgoing_data nm handler :
  ~ (scheme (url req) = "https" /\ SSL_AVAILABLE env = false) ->
  _scheme_handlers nm !! scheme (url req) = Some handler ->
  createRequest env op req outgoing_data nm =
  (Ok (handler_createRequest handler op req outgoing_data, req), nm).
Proof.
  intros Hssl Hh. unfold createRequest.
  destruct (String.eqb_spec (scheme (url req)) "https") as [Hs|Hs];
    destruct (SSL_AVAILABLE env) eqn:Ha; simpl;
    try (exfalso; by apply Hssl);
    unfold bind, gets; by rewrite Hh.
Qed.

Lemma shutdown_eq nm :
  shutdown nm =
  (Ok tt,
   with_calls (flat_map (fun r => [abort r; deleteLater r]) (_requests nm))
     (with_accessible NotAccessible nm)).
Proof.
  unfold shutdown, bind at 1, setNetworkAccessible, modify.
  unfold bind at 1, gets. cbv beta iota.
  apply for_each_calls. intros r nm'.
  unfold bind, call, modify. by rewrite with_calls_app.
Qed.

Lemma flat_map_singleton {A B} (f : A -> B) (l : list A) :
  flat_map (fun x => [f x]) l = List.map f l.
Proof. induction l as [|x l IH]; simpl; [done|by rewrite IH]. Qed.

Lemma list_remove_None {A} `{EqDecision A} (x : A) (l : list A) :
  list_remove x l = None <-> x ∉ l.
Proof.
  induction l as [|y l IH]; simpl.
  - split; [intros _; apply not_elem_of_nil|done].
  - rewrite not_elem_of_cons. destruct (decide (y = x)) as [->|Hne].
    + split; [done|]. by intros [? _].
    + rewrite fmap_None, IH. split; [by intros ?|by intros [_ ?]].
Qed.

Lemma list_remove_Some {A} `{EqDecision A} (x : A) (l rs : list A) :
  NoDup l -> list_remove x l = Some rs ->
  forall r, r ∈ rs <-> r ∈ l /\ r <> x.
Proof.
  intros Hnd. revert rs.
  induction Hnd as [|y l Hy Hnd IH]; intros rs; simpl; [done|].
  destruct (decide (y = x)) as [->|Hne].
  - intros [= <-] r. rewrite elem_of_cons. split.
    + intros Hr. split; [by right|]. by intros ->.
    + by intros [[->|Hr] Hrx].
  - rewrite fmap_Some. intros (rs' & Hrs' & ->) r.
    rewrite !elem_of_cons, (IH rs' Hrs' r). split.
    + intros [->|[Hr Hrx]]; [by split; [left|]|by split; [right|]].
    + intros [[->|Hr] Hrx]; [by left|by right].
Qed.

Lemma on_ssl_errors_eq env reply errors nm :
  on_ssl_errors env reply errors nm =
  (Ok tt,
   if network_ssl_strict (config env) then nm
   else with_calls
          (List.map (fun err => message_error
                       ("SSL error: " +:+ errorString err)) errors
           ++ [ignoreSslErrors reply]) nm).
Proof.
  unfold on_ssl_errors.
  destruct (network_ssl_strict (config env)); [done|].
  unfold bind at 1.
  rewrite (for_each_calls errors _
    (fun err => [message_error ("SSL error: " +:+ errorString err)]))
    by done.
  unfold call, modify.
  by rewrite with_calls_app, flat_map_singleton.
Qed.

Lemma encode_ascii_Ok s s' : encode_ascii s = Ok s' -> s' = s.
Proof.
  unfold encode_ascii. destruct (forallb _ _); [|done]. by intros [= <-].
Qed.

(** [createRequest] either leaves the manager as it was or tracks one new
    reply of the transport. *)
Lemma createRequest_cases env op req outgoing_data nm :
  snd (createRequest env op req outgoing_data nm) = nm \/
  exists req' made,
    snd (createRequest env op req outgoing_data nm) =
    with_calls made
      (with_requests
         (_requests nm ++
          [NetworkReply (next_obj nm) (networkAccessible nm) op req'
             outgoing_data])
         (with_next_obj (S (next_obj nm)) nm)).
Proof.
  destruct (decide (scheme (url req) = "https" /\ SSL_AVAILABLE env = false))
    as [[Hs Ha]|Hssl].
  { left. by rewrite createRequest_ssl_unavailable. }
  destruct (_scheme_handlers nm !! scheme (url req)) as [handler|] eqn:Hh.
  { left. by rewrite (createRequest_scheme_handler _ _ _ _ _ handler). }
  destruct (network_accept_language (config env)) as [al|] eqn:Hal.
  - destruct (encode_ascii al) as [al'|e] eqn:Henc.
    + right. eexists _, _.
      rewrite createRequest_transport_path; [reflexivity|done..|].
      intros al0. rewrite Hal. intros [= <-].
      by rewrite Henc, (encode_ascii_Ok _ _ Henc).
    + left. unfold createRequest.
      assert (Hguard : String.eqb (scheme (url req)) "https"
                       && negb (SSL_AVAILABLE env) = false).
      { destruct (String.eqb_spec (scheme (url req)) "https") as [Hs|Hs];
          [|done].
        destruct (SSL_AVAILABLE env) eqn:Ha; [done|].
        exfalso. by apply Hssl. }
      rewrite Hguard. unfold bind at 1, gets at 1. cbv beta iota.
      rewrite Hh, Hal. unfold bind at 1. unfold bind at 1. unfold lift.
      by rewrite Henc.
  - right. eexists _, _.
    rewrite createRequest_transport_path; [reflexivity|done..|].
    intros al0. by rewrite Hal.
Qed.

Lemma tracker_ok_init qute accessible : tracker_ok (init qute accessible).
Proof.
  split; simpl; [apply NoDup_nil_2|].
  intros r Hr. by apply elem_of_nil in Hr.
Qed.

Lemma tracker_ok_with_calls cs nm : tracker_ok nm -> tracker_ok (with_calls cs nm).
Proof. done. Qed.

Lemma tracker_ok_createRequest env op req outgoing_data nm :
  tracker_ok nm ->
  tracker_ok (snd (createRequest env op req outgoing_data nm)).
Proof.
  intros [Hnd Hold].
  destruct (createRequest_cases env op req outgoing_data nm)
    as [->|(req' & made & ->)]; [done|].
  apply tracker_ok_with_calls. split; simpl.
  - apply NoDup_app. split_and!; [done| |apply NoDup_singleton].
    intros r Hr Hnew. apply list_elem_of_singleton in Hnew as ->.
    destruct (Hold _ Hr) as (obj & a & o & q & d & [= -> _ _ _ _] & Hlt).
    lia.
  - intros r. rewrite elem_of_app, list_elem_of_singleton.
    intros [Hr| ->].
    + destruct (Hold _ Hr) as (obj & a & o & q & d & -> & Hlt).
      exists obj, a, o, q, d. split; [done|lia].
    + eexists _, _, _, _, _. split; [done|lia].
Qed.

Lemma tracker_ok_on_destroyed obj nm :
  tracker_ok nm -> tracker_ok (snd (on_destroyed obj nm)).
Proof.
  intros [Hnd Hold]. unfold on_destroyed, bind, gets. simpl.
  destruct (list_remove obj (_requests nm)) as [rs|] eqn:Hrm; [|done].
  pose proof (list_remove_Some obj _ rs Hnd Hrm) as Hrs.
  split; simpl.
  - clear Hold Hrs. revert rs Hrm.
    induction Hnd as [|y l Hy Hnd IH]; intros rs; simpl; [done|].
    destruct (decide (y = obj)) as [->|Hne].
    + by intros [= <-].
    + rewrite fmap_Some. intros (rs' & Hrs' & ->).
      apply NoDup_cons. split; [|by apply IH].
      intros Hin. apply Hy.
      by apply (list_remove_Some obj l rs' Hnd Hrs') in Hin as [? _].
  - intros r Hr. apply Hold. by apply Hrs in Hr as [? _].
Qed.


End network_manager.

(** C1, what the code does.  [on_ssl_errors] does nothing under ssl-strict:
    no call is made, [ignoreSslErrors] least of all.  With ssl-strict off it
    reports every error of the list once and in order, and then calls
    [reply.ignoreSslErrors()]; each report is made with [message.error]:
    a list of n errors gives n calls of [message.error] and no
    [message.warning]. *)
Theorem on_ssl_errors_reports_with_message_error
    (env : networkmanager.Environment) (reply : networkmanager.QNetworkReply)
    (errors : list networkmanager.QSslError)
    (nm : networkmanager.NetworkManager) :
  (network_ssl_strict (networkmanager.config env) = true ->
   networkmanager.on_ssl_errors env reply errors nm = (Ok tt, nm)) /\
  (network_ssl_strict (networkmanager.config env) = false ->
   let made :=
     List.map (fun err => networkmanager.message_error
                 ("SSL error: " +:+ networkmanager.errorString err)) errors
     ++ [networkmanager.ignoreSslErrors reply] in
   networkmanager.on_ssl_errors env reply errors nm
     = (Ok tt, networkmanager.with_calls made nm) /\
   length (List.filter networkmanager.is_message_error made) = length errors /\
   List.filter networkmanager.is_message_warning made = []).
Proof.
  split.
  - intros Hstrict. rewrite on_ssl_errors_eq. by rewrite Hstrict.
  - intros Hlax made. split_and!.
    + rewrite on_ssl_errors_eq. by rewrite Hlax.
    + unfold made. rewrite List.filter_app, length_app. simpl.
      rewrite Nat.add_0_r.
      induction errors as [|e errors IH]; simpl; [done|by rewrite IH].
    + unfold made. rewrite List.filter_app. simpl. rewrite app_nil_r.
      induction errors as [|e errors IH]; simpl; done.
Qed.

Lemma on_ssl_errors_two_errors :
  network_ssl_strict (networkmanager.config examples.env) = false /\
  networkmanager.calls
    (snd (networkmanager.on_ssl_errors examples.env examples.reply1
            examples.ssl_errors examples.nm0))
  = [networkmanager.message_error "SSL error: The host name did not match";
     networkmanager.message_error "SSL error: The certificate has expired";
     networkmanager.ignoreSslErrors examples.reply1].
Proof.
  split; [reflexivity|].
  destruct (on_ssl_errors_reports_with_message_error examples.env
              examples.reply1 examples.ssl_errors
              examples.nm0) as [_ Hlax].
  destruct Hlax as (Heq & _ & _); [reflexivity|].
  rewrite Heq. reflexivity.
Defined.

(** C2, as stated, fails: a second [remove] of a reply that was tracked
    once raises [ValueError]. *)
Lemma untrack_twice_raises :
  ~ (forall obj nm,
       obj ∈ networkmanager._requests nm ->
       fst (networkmanager.on_destroyed obj nm) = Ok tt /\
       fst (networkmanager.on_destroyed obj
              (snd (networkmanager.on_destroyed obj nm))) = Ok tt /\
       snd (networkmanager.on_destroyed obj
              (snd (networkmanager.on_destroyed obj nm)))
       = snd (networkmanager.on_destroyed obj nm)).
Proof.
  intros Hclaim.
  destruct (Hclaim examples.reply1 examples.nm1) as (_ & Hsecond & _).
  - apply list_elem_of_In. vm_compute. by left.
  - vm_compute in Hsecond. discriminate Hsecond.
Qed.

(** C2, as the code has it.  For a reply that is tracked, once: the slot
    removes it without an exception, the other tracked replies stay; a
    second call for the same reply raises [ValueError] and leaves the
    manager as the first call left it. *)
Theorem untrack_second_call_raises (obj : networkmanager.QNetworkReply)
    (nm : networkmanager.NetworkManager) :
  obj ∈ networkmanager._requests nm ->
  NoDup (networkmanager._requests nm) ->
  exists rs,
    networkmanager.on_destroyed obj nm
      = (Ok tt, networkmanager.with_requests rs nm) /\
    (forall r, r ∈ rs <-> r ∈ networkmanager._requests nm /\ r <> obj) /\
    networkmanager.on_destroyed obj (networkmanager.with_requests rs nm)
      = (Raise ValueError, networkmanager.with_requests rs nm).
Proof.
  intros Hin Hnd.
  destruct (list_remove obj (networkmanager._requests nm)) as [rs|] eqn:Hrm.
  - exists rs.
    pose proof (list_remove_Some obj _ rs Hnd Hrm) as Hrs.
    split_and!.
    + unfold networkmanager.on_destroyed, bind, gets. by rewrite Hrm.
    + exact Hrs.
    + unfold networkmanager.on_destroyed, bind, gets. simpl.
      assert (Hgone : list_remove obj rs = None).
      { apply list_remove_None. rewrite Hrs. by intros [_ ?]. }
      by rewrite Hgone.
  - apply list_remove_None in Hrm. done.
Qed.

Lemma untrack_second_call_raises_witness :
  networkmanager.on_destroyed examples.reply1 examples.nm1
    = (Ok tt, networkmanager.with_requests [] examples.nm1) /\
  networkmanager.on_destroyed examples.reply1
    (networkmanager.with_requests [] examples.nm1)
    = (Raise ValueError, networkmanager.with_requests [] examples.nm1).
Proof.
  destruct (untrack_second_call_raises examples.reply1 examples.nm1)
    as (rs & Hfirst & _ & _).
  - apply list_elem_of_In. vm_compute. by left.
  - vm_compute. apply NoDup_singleton.
  - split; reflexivity.
Defined.

(** A reply that is not tracked at all: the slot raises at the first call. *)
Lemma untrack_untracked_raises (obj : networkmanager.QNetworkReply)
    (nm : networkmanager.NetworkManager) :
  obj ∉ networkmanager._requests nm ->
  networkmanager.on_destroyed obj nm = (Raise ValueError, nm).
Proof.
  intros Hnot. apply list_remove_None in Hnot.
  unfold networkmanager.on_destroyed, bind, gets. by rewrite Hnot.
Qed.

Lemma untrack_untracked_raises_witness :
  networkmanager.on_destroyed examples.reply1 examples.nm0
  = (Raise ValueError, examples.nm0).
Proof.
  apply (untrack_untracked_raises examples.reply1 examples.nm0).
  apply not_elem_of_nil.
Defined.

(** C8.  A request whose scheme has a handler in [_scheme_handlers] (and
    that is not an https request without SSL) is answered by the handler's
    [createRequest]: the reply is the handler's, the request is returned as
    it came (no DNT, X-Do-Not-Track or Accept-Language header is set) and the
    manager is unchanged: nothing is appended to [_requests] and no call is
    made, to the transport or otherwise. *)
Theorem createRequest_registered_scheme
    (env : networkmanager.Environment) (op : networkmanager.Operation)
    (req : networkmanager.QNetworkRequest)
    (outgoing_data : networkmanager.OutgoingData)
    (nm : networkmanager.NetworkManager)
    (handler : networkmanager.SchemeHandler) :
  ~ (networkmanager.scheme (networkmanager.url req) = "https" /\
     networkmanager.SSL_AVAILABLE env = false) ->
  networkmanager._scheme_handlers nm
    !! networkmanager.scheme (networkmanager.url req) = Some handler ->
  networkmanager.createRequest env op req outgoing_data nm
  = (Ok (networkmanager.handler_createRequest handler op req outgoing_data,
         req), nm).
Proof. apply createRequest_scheme_handler. Qed.

Lemma createRequest_registered_scheme_witness :
  networkmanager.createRequest examples.env networkmanager.GetOperation
    (examples.request "qute" "version") None examples.nm1
  = (Ok (networkmanager.SpecialNetworkReply
           (examples.request "qute" "version")
           "<html>qutebrowser</html>" "text/html",
         examples.request "qute" "version"), examples.nm1).
Proof.
  apply (createRequest_registered_scheme examples.env
           networkmanager.GetOperation (examples.request "qute" "version")
           None examples.nm1 examples.qute).
  - intros [Hs _]. discriminate Hs.
  - reflexivity.
Defined.

(** C9.  An https request when SSL is not available is answered at once
    with an [ErrorNetworkReply] of kind [ProtocolUnknownError] that carries
    the message "SSL is not supported by the installed Qt library!"; the
    request is returned as it came and the manager is unchanged: no call to
    the transport, no header set, nothing tracked. *)
Theorem createRequest_https_without_ssl
    (env : networkmanager.Environment) (op : networkmanager.Operation)
    (req : networkmanager.QNetworkRequest)
    (outgoing_data : networkmanager.OutgoingData)
    (nm : networkmanager.NetworkManager) :
  networkmanager.scheme (networkmanager.url req) = "https" ->
  networkmanager.SSL_AVAILABLE env = false ->
  networkmanager.createRequest env op req outgoing_data nm
  = (Ok (networkmanager.ErrorNetworkReply req
           "SSL is not supported by the installed Qt library!"
           networkmanager.ProtocolUnknownError, req), nm).
Proof. apply createRequest_ssl_unavailable. Qed.

Lemma createRequest_https_without_ssl_witness :
  networkmanager.createRequest examples.env_no_ssl networkmanager.GetOperation
    (examples.request "https" "//example.com/") None examples.nm1
  = (Ok (networkmanager.ErrorNetworkReply
           (examples.request "https" "//example.com/")
           "SSL is not supported by the installed Qt library!"
           networkmanager.ProtocolUnknownError,
         examples.request "https" "//example.com/"), examples.nm1).
Proof.
  apply (createRequest_https_without_ssl examples.env_no_ssl
           networkmanager.GetOperation
           (examples.request "https" "//example.com/") None examples.nm1);
    reflexivity.
Defined.

(** With SSL available the same request goes to the transport. *)
Example createRequest_https_with_ssl :
  fst (networkmanager.createRequest examples.env networkmanager.GetOperation
         (examples.request "https" "//example.com/") None
         examples.nm0)
  = Ok (networkmanager.NetworkReply 0%nat networkmanager.Accessible
          networkmanager.GetOperation
          {| networkmanager.url :=
               {| networkmanager.scheme := "https";
                  networkmanager.remainder := "//example.com/" |};
             networkmanager.rawHeaders :=
               [("DNT", "1"); ("X-Do-Not-Track", "1");
                ("Accept-Language", "en-US,en")] |}
          None,
        {| networkmanager.url :=
             {| networkmanager.scheme := "https";
                networkmanager.remainder := "//example.com/" |};
           networkmanager.rawHeaders :=
             [("DNT", "1"); ("X-Do-Not-Track", "1");
              ("Accept-Language", "en-US,en")] |}).
Proof. reflexivity. Qed.

(** C3, as stated, fails on each count.  After [shutdown] the tracker
    still holds the requests that were aborted; a later [createRequest]
    changes the manager and the request; and a request for a registered
    scheme is answered by its handler, not by an error reply. *)
Lemma shutdown_leaves_tracker_and_createRequest_open :
  ~ (forall nm,
       networkmanager._requests (snd (networkmanager.shutdown nm)) = []) /\
  ~ (forall env op req outgoing_data nm,
       snd (networkmanager.createRequest env op req outgoing_data
              (snd (networkmanager.shutdown nm)))
       = snd (networkmanager.shutdown nm)) /\
  ~ (forall env op req outgoing_data nm reply req',
       fst (networkmanager.createRequest env op req outgoing_data
              (snd (networkmanager.shutdown nm))) = Ok (reply, req') ->
       req' = req) /\
  ~ (forall env op req outgoing_data nm,
       exists errorstring error,
         fst (networkmanager.createRequest env op req outgoing_data
                (snd (networkmanager.shutdown nm)))
         = Ok (networkmanager.ErrorNetworkReply req errorstring error, req)).
Proof.
  split_and!.
  - intros Hclaim. specialize (Hclaim examples.nm1).
    vm_compute in Hclaim. discriminate Hclaim.
  - intros Hclaim.
    specialize (Hclaim examples.env networkmanager.GetOperation
                  (examples.request "http" "//example.org/") None examples.nm1).
    apply (f_equal networkmanager.next_obj) in Hclaim.
    vm_compute in Hclaim. discriminate Hclaim.
  - intros Hclaim.
    specialize (Hclaim examples.env networkmanager.GetOperation
                  (examples.request "http" "//example.org/") None examples.nm1
                  _ _ eq_refl).
    vm_compute in Hclaim. discriminate Hclaim.
  - intros Hclaim.
    destruct (Hclaim examples.env networkmanager.GetOperation
                (examples.request "qute" "version") None examples.nm1)
      as (errorstring & error & Heq).
    vm_compute in Heq. discriminate Heq.
Qed.

(** The run behind it: one request in flight, [shutdown], then a new
    request.  The tracker holds the aborted reply and then the new one too. *)
Example shutdown_then_createRequest :
  networkmanager._requests (snd (networkmanager.shutdown examples.nm1))
    = [examples.reply1] /\
  networkmanager._requests
    (snd (networkmanager.createRequest examples.env
            networkmanager.GetOperation
            (examples.request "http" "//example.org/") None
            (snd (networkmanager.shutdown examples.nm1))))
  = [examples.reply1;
     networkmanager.NetworkReply 1%nat networkmanager.NotAccessible
       networkmanager.GetOperation
       {| networkmanager.url :=
            {| networkmanager.scheme := "http";
               networkmanager.remainder := "//example.org/" |};
          networkmanager.rawHeaders :=
            [("DNT", "1"); ("X-Do-Not-Track", "1");
             ("Accept-Language", "en-US,en")] |}
       None].
Proof. split; reflexivity. Qed.

(** C3, as the code has it.  [shutdown] makes the manager not accessible
    and calls [abort()] and [deleteLater()] on every tracked request, in
    the tracker's order; it does not raise and it leaves the tracker as it
    was.  [createRequest] does not look at the accessibility: after
    [shutdown] a request for a registered scheme is answered by its handler
    as before, and a request on the transport path has its headers set, is
    passed to the transport (which is called with the manager not
    accessible) and the reply is appended to the tracker. *)
Theorem shutdown_aborts_and_keeps_tracker
    (env : networkmanager.Environment) (nm : networkmanager.NetworkManager) :
  networkmanager.shutdown nm
  = (Ok tt,
     networkmanager.with_calls
       (flat_map (fun r => [networkmanager.abort r;
                            networkmanager.deleteLater r])
                 (networkmanager._requests nm))
       (networkmanager.with_accessible networkmanager.NotAccessible nm)) /\
  networkmanager._requests (snd (networkmanager.shutdown nm))
    = networkmanager._requests nm /\
  networkmanager.networkAccessible (snd (networkmanager.shutdown nm))
    = networkmanager.NotAccessible /\
  (forall op req outgoing_data handler,
     ~ (networkmanager.scheme (networkmanager.url req) = "https" /\
        networkmanager.SSL_AVAILABLE env = false) ->
     networkmanager._scheme_handlers nm
       !! networkmanager.scheme (networkmanager.url req) = Some handler ->
     networkmanager.createRequest env op req outgoing_data
       (snd (networkmanager.shutdown nm))
     = (Ok (networkmanager.handler_createRequest handler op req
              outgoing_data, req),
        snd (networkmanager.shutdown nm))) /\
  (forall op req outgoing_data,
     ~ (networkmanager.scheme (networkmanager.url req) = "https" /\
        networkmanager.SSL_AVAILABLE env = false) ->
     networkmanager._scheme_handlers nm
       !! networkmanager.scheme (networkmanager.url req) = None ->
     (forall al,
        network_accept_language (networkmanager.config env) = Some al ->
        encode_ascii al = Ok al) ->
     exists req' nm',
       let reply :=
         networkmanager.NetworkReply (networkmanager.next_obj nm)
           networkmanager.NotAccessible op req' outgoing_data in
       networkmanager.createRequest env op req outgoing_data
         (snd (networkmanager.shutdown nm))
       = (Ok (reply, req'), nm') /\
       networkmanager._requests nm' = networkmanager._requests nm ++ [reply] /\
       networkmanager.transport_createRequest op req' outgoing_data
         ∈ networkmanager.calls nm' /\
       networkmanager.rawHeader "DNT" req'
       = Some (if network_do_not_track (networkmanager.config env)
               then "1" else "0")).
Proof.
  rewrite shutdown_eq. split_and!; try reflexivity.
  - intros op req outgoing_data handler Hssl Hh.
    by apply createRequest_scheme_handler.
  - intros op req outgoing_data Hssl Hnone Hascii.
    pose proof (createRequest_transport_path env op req outgoing_data
                  (snd (networkmanager.shutdown nm))) as Hcreate.
    rewrite shutdown_eq in Hcreate.
    specialize (Hcreate Hssl Hnone Hascii). cbv zeta in Hcreate.
    eexists _, _. cbv zeta. split_and!.
    + exact Hcreate.
    + reflexivity.
    + simpl. rewrite !elem_of_app. right.
      destruct (networkmanager.PYQT_VERSION env <? 0x050301);
        left; rewrite !elem_of_cons; auto.
    + destruct (network_accept_language (networkmanager.config env));
        rewrite ?(rawHeader_setRawHeader_other "DNT" "Accept-Language") by done;
        rewrite (rawHeader_setRawHeader_other "DNT" "X-Do-Not-Track") by done;
        by apply rawHeader_setRawHeader.
Qed.

Lemma shutdown_aborts_and_keeps_tracker_witness :
  networkmanager._requests (snd (networkmanager.shutdown examples.nm1))
    = [examples.reply1] /\
  networkmanager.calls (snd (networkmanager.shutdown examples.nm1))
    = networkmanager.calls examples.nm1
      ++ [networkmanager.abort examples.reply1;
          networkmanager.deleteLater examples.reply1] /\
  exists req' nm',
    networkmanager.createRequest examples.env networkmanager.GetOperation
      (examples.request "http" "//example.org/") None
      (snd (networkmanager.shutdown examples.nm1))
    = (Ok (networkmanager.NetworkReply 1%nat networkmanager.NotAccessible
             networkmanager.GetOperation req' None, req'), nm') /\
    networkmanager._requests nm'
    = [examples.reply1;
       networkmanager.NetworkReply 1%nat networkmanager.NotAccessible
         networkmanager.GetOperation req' None].
Proof.
  destruct (shutdown_aborts_and_keeps_tracker examples.env examples.nm1)
    as (Hshutdown & Hkept & _ & _ & Htransport).
  split; [exact Hkept|]. split; [by rewrite Hshutdown|].
  destruct (Htransport networkmanager.GetOperation
              (examples.request "http" "//example.org/") None)
    as (req' & nm' & Hcreate & Htracked & _ & _).
  - intros [Hs _]. discriminate Hs.
  - reflexivity.
  - intros al [= <-]. reflexivity.
  - exists req', nm'. split; [exact Hcreate|exact Htracked].
Defined.


Example createRequest_empty_accept_language :
  fst (networkmanager.createRequest examples.env_empty_language
         networkmanager.GetOperation
         (examples.request "http" "//example.com/") None
         examples.nm0)
  = Ok (networkmanager.NetworkReply 0%nat networkmanager.Accessible
          networkmanager.GetOperation
          {| networkmanager.url :=
               {| networkmanager.scheme := "http";
                  networkmanager.remainder := "//example.com/" |};
             networkmanager.rawHeaders :=
               [("DNT", "1"); ("X-Do-Not-Track", "1");
                ("Accept-Language", "")] |}
          None,
        {| networkmanager.url :=
             {| networkmanager.scheme := "http";
                networkmanager.remainder := "//example.com/" |};
           networkmanager.rawHeaders :=
             [("DNT", "1"); ("X-Do-Not-Track", "1");
              ("Accept-Language", "")] |}).
Proof. reflexivity. Qed.



Example createRequest_replaces_dnt :
  match fst (networkmanager.createRequest examples.env
               networkmanager.GetOperation examples.request_with_dnt None
               examples.nm0) with
  | Ok (_, req') => networkmanager.rawHeaders req'
  | Raise _ => []
  end
  = [("User-Agent", "qutebrowser"); ("DNT", "1"); ("X-Do-Not-Track", "1");
     ("Accept-Language", "en-US,en")].
Proof. reflexivity. Qed.

(** An accept-language that is not ASCII: [encode('ascii')] raises before the
    transport is called, and nothing is tracked. *)
Example createRequest_non_ascii_accept_language :
  networkmanager.createRequest
    {| networkmanager.SSL_AVAILABLE := true;
       networkmanager.PYQT_VERSION := 0x050400;
       networkmanager.config :=
         {| permissions_cookies_accept := "default";
            permissions_cookies_store := true;
            network_ssl_strict := false;
            network_do_not_track := true;
            network_accept_language :=
              Some (String (Ascii.ascii_of_N 0xC3)
                      (String (Ascii.ascii_of_N 0xA9) EmptyString)) |} |}
    networkmanager.GetOperation (examples.request "http" "//example.com/")
    None examples.nm0
  = (Raise UnicodeEncodeError, examples.nm0).
Proof. reflexivity. Qed.

(** A PyQt older than 5.3.1: the transport is called with Qt's message
    handler disabled. *)
Example createRequest_old_pyqt :
  networkmanager.calls
    (snd (networkmanager.createRequest
            {| networkmanager.SSL_AVAILABLE := true;
               networkmanager.PYQT_VERSION := 0x050300;
               networkmanager.config := examples.cfg |}
            networkmanager.GetOperation
            (examples.request "http" "//example.com/") None
            examples.nm0))
  = [networkmanager.disable_qt_msghandler_enter;
     networkmanager.transport_createRequest networkmanager.GetOperation
       (networkmanager.NetworkReply_request examples.reply1) None;
     networkmanager.disable_qt_msghandler_exit;
     networkmanager.destroyed_connect examples.reply1].
Proof. reflexivity. Qed.

(** * The tracker over the life of a manager *)

(** Whatever requests are created, replies destroyed, errors reported, and
    whether or not the manager was shut down: no reply is tracked twice and
    every tracked reply is a reply of the transport.  So the premise of
    the theorem on the second [remove] holds in every state the program
    reaches. *)
Theorem reachable_tracker_ok (env : networkmanager.Environment)
    (nm : networkmanager.NetworkManager) :
  networkmanager.reachable env nm -> networkmanager.tracker_ok nm.
Proof.
  induction 1 as [qute accessible|nm nm' _ IH Hstep].
  - apply tracker_ok_init.
  - destruct Hstep as [op req outgoing_data nm|obj nm|nm|reply errors nm].
    + by apply tracker_ok_createRequest.
    + by apply tracker_ok_on_destroyed.
    + rewrite shutdown_eq. exact IH.
    + rewrite on_ssl_errors_eq. simpl.
      by destruct (network_ssl_strict (networkmanager.config env)).
Qed.

Lemma reachable_tracker_ok_witness :
  networkmanager.reachable examples.env examples.nm1 /\
  NoDup (networkmanager._requests examples.nm1).
Proof.
  assert (Hreach : networkmanager.reachable examples.env examples.nm1).
  { apply (networkmanager.reachable_step _ examples.nm0).
    - apply networkmanager.reachable_init.
    - apply networkmanager.step_createRequest. }
  split; [exact Hreach|].
  exact (proj1 (reachable_tracker_ok examples.env examples.nm1 Hreach)).
Defined.

(** * More on the cookie jar *)

Lemma filter_filter_and {A} (f g : A -> bool) (l : list A) :
  List.filter f (List.filter g l) = List.filter (fun x => g x && f x) l.
Proof.
  induction l as [|x l IH]; simpl; [done|].
  destruct (g x); simpl; [|done]. by destruct (f x); rewrite IH.
Qed.

Lemma kept_max (a b : cookies.QDateTime) (c : cookies.QNetworkCookie) :
  cookies.kept b c && cookies.kept a c = cookies.kept (Z.max a b) c.
Proof.
  unfold cookies.kept, cookies.isSessionCookie, cookies.expirationDate_ge.
  destruct (cookies.expirationDate c) as [t|]; simpl; [|done].
  repeat case_bool_decide; simpl; try done; lia.
Qed.

(** Purging twice is purging once, at the later of the two times: a purge
    after a purge removes nothing when the clock has not advanced, and the
    result does not depend on how many purges ran in between. *)
Theorem purge_old_cookies_twice (a b : cookies.QDateTime)
    (jar : cookies.CookieJar) :
  snd (cookies.purge_old_cookies a (snd (cookies.purge_old_cookies b jar)))
  = snd (cookies.purge_old_cookies (Z.max a b) jar).
Proof.
  unfold cookies.purge_old_cookies, bind, gets, cookies.setAllCookies, modify.
  simpl. f_equal. rewrite filter_filter_and.
  apply List.filter_ext. intros c. apply kept_max.
Qed.

Lemma save_loop_raises_only `{cookies.QtCookies} cs lines e :
  cookies.save_loop cs lines = Raise e -> e = UnicodeDecodeError.
Proof.
  revert lines. induction cs as [|c cs IH]; intros lines; simpl; [done|].
  destruct (negb (cookies.isSessionCookie c)); [|apply IH].
  unfold decode_utf8.
  destruct (utf8_valid (bytes_of (cookies.toRawForm c))); [apply IH|].
  by intros [= <-].
Qed.

(** Whatever the jar holds and whether or not [save] raises: with
    persistence on, the jar afterwards holds exactly the cookies the purge
    keeps (no cookie is added, no session cookie and no cookie still valid
    is lost); with persistence off it holds what it held.  [save] raises
    two exceptions only.  [UnicodeDecodeError]: then the line parser, data
    and file, is as before.  The I/O error of the write, and only when the
    file cannot be written: then the file is as before.  So the file
    afterwards is the old file or, after a [save] that returned, the new
    lines entire; a part of them is never written. *)
Theorem save_store_on_every_path `{cookies.QtCookies}
    (cfg : Config) (now : cookies.QDateTime) (jar : cookies.CookieJar) :
  cookies.allCookies (snd (cookies.save cfg now jar))
  = (if permissions_cookies_store cfg
     then List.filter (cookies.kept now) (cookies.allCookies jar)
     else cookies.allCookies jar) /\
  (fst (cookies.save cfg now jar) = Ok tt \/
   fst (cookies.save cfg now jar) = Raise UnicodeDecodeError /\
   cookies._linecp (snd (cookies.save cfg now jar)) = cookies._linecp jar \/
   fst (cookies.save cfg now jar) = Raise OSError /\
   cookies.writable (cookies._linecp jar) = false /\
   cookies.file (cookies._linecp (snd (cookies.save cfg now jar)))
   = cookies.file (cookies._linecp jar)) /\
  (cookies.file (cookies._linecp (snd (cookies.save cfg now jar)))
   = cookies.file (cookies._linecp jar) \/
   fst (cookies.save cfg now jar) = Ok tt /\
   cookies.writable (cookies._linecp jar) = true /\
   cookies.file (cookies._linecp (snd (cookies.save cfg now jar)))
   = List.map cookies.toRawForm
       (List.filter (fun c => negb (cookies.isSessionCookie c))
          (List.filter (cookies.kept now) (cookies.allCookies jar)))).
Proof.
  destruct (permissions_cookies_store cfg) eqn:Hon.
  - rewrite (save_on cfg now jar Hon). cbv zeta.
    destruct (save_loop_persistent
                (List.filter (cookies.kept now) (cookies.allCookies jar)))
      as [Hvalid _].
    cbv zeta in Hvalid.
    destruct (cookies.save_loop _ _) as [lines|e] eqn:Hloop.
    + destruct (cookies.writable (cookies._linecp jar)) eqn:Hw; simpl.
      * split_and!; [done|by left|]. right. split_and!; [done..|].
        destruct (decide (Forall
          (fun c => utf8_valid (bytes_of (cookies.toRawForm c)) = true)
          (List.filter (fun c => negb (cookies.isSessionCookie c))
             (List.filter (cookies.kept now) (cookies.allCookies jar)))))
          as [Hall|Hnot].
        { specialize (Hvalid Hall). congruence. }
        exfalso. apply not_Forall_Exists in Hnot; [|intros c; apply _].
        destruct (save_loop_persistent
                    (List.filter (cookies.kept now) (cookies.allCookies jar)))
          as [_ Hbad].
        cbv zeta in Hbad. rewrite Hbad in Hloop; [done|].
        eapply Exists_impl; [exact Hnot|]. intros c Hc. simpl in Hc.
        by destruct (utf8_valid (bytes_of (cookies.toRawForm c))).
      * split_and!; [done| |by left]. right. right. by split_and!.
    + simpl. apply save_loop_raises_only in Hloop as ->.
      split_and!; [done| |by left]. right. left. by split.
  - rewrite (save_off cfg now jar Hon). simpl.
    split_and!; [done|by left|by left].
Qed.

Lemma flat_map_parse_print `{cookies.QtCookies}
    (cs : list cookies.QNetworkCookie) :
  Forall (fun c => cookies.parseCookies (cookies.toRawForm c) = [c]) cs ->
  flat_map cookies.parseCookies (List.map cookies.toRawForm cs) = cs.
Proof.
  induction 1 as [|c cs Hc _ IH]; simpl; [done|]. by rewrite Hc, IH.
Qed.

(** Save and restart.  With persistence on and a file that can be
    written, when the raw form of each cookie to persist is valid UTF-8
    and parses back to that cookie, a jar built from the file that [save]
    wrote holds exactly the cookies that were not session cookies and not
    expired at the time of the save, in the jar's order: the session
    cookies are gone. *)
Theorem save_then_init `{cookies.QtCookies}
    (cfg : Config) (now : cookies.QDateTime) (jar : cookies.CookieJar) :
  permissions_cookies_store cfg = true ->
  cookies.writable (cookies._linecp jar) = true ->
  Forall (fun c => utf8_valid (bytes_of (cookies.toRawForm c)) = true /\
                   cookies.parseCookies (cookies.toRawForm c) = [c])
    (List.filter (fun c => negb (cookies.isSessionCookie c))
       (List.filter (cookies.kept now) (cookies.allCookies jar))) ->
  cookies.allCookies
    (cookies.init
       (cookies.file (cookies._linecp (snd (cookies.save cfg now jar)))))
  = List.filter (fun c => negb (cookies.isSessionCookie c))
      (List.filter (cookies.kept now) (cookies.allCookies jar)).
Proof.
  intros Hon Hw Hlaw.
  set (purged := List.filter (cookies.kept now) (cookies.allCookies jar)) in *.
  assert (Hutf8 : Forall (fun c => cookies.isSessionCookie c = false ->
                    utf8_valid (bytes_of (cookies.toRawForm c)) = true) purged).
  { apply Forall_forall. intros c Hc Hs.
    rewrite Forall_forall in Hlaw. apply Hlaw.
    apply list_elem_of_In, filter_In. split; [by apply list_elem_of_In|].
    by rewrite Hs. }
  assert (Hfile : cookies.file (cookies._linecp (snd (cookies.save cfg now jar)))
    = List.map cookies.toRawForm
        (List.filter (fun c => negb (cookies.isSessionCookie c)) purged)).
  { rewrite (save_on cfg now jar Hon). cbv zeta. fold purged.
    by rewrite (save_loop_ok purged [] Hutf8), Hw. }
  rewrite Hfile. unfold cookies.init. simpl.
  rewrite init_loop_flat_map. simpl.
  apply flat_map_parse_print.
  eapply Forall_impl; [exact Hlaw|]. by intros c [_ ?].
Qed.

(** One event leaves the line parser alone unless it is a [save] with
    persistence on. *)
Lemma jar_step_linecp `{cookies.QtCookies} cfg jar jar' :
  life.jar_step cfg jar jar' ->
  cookies._linecp jar' = cookies._linecp jar \/
  permissions_cookies_store cfg = true /\
  exists now, jar' = snd (cookies.save cfg now jar).
Proof.
  intros [now j|cs url j|now j].
  - by left.
  - left. unfold cookies.setCookiesFromUrl.
    destruct (String.eqb _ _); [done|].
    unfold bind, gets. simpl.
    by destruct (cookies.super_setCookiesFromUrl cs url (cookies.allCookies j)).
  - destruct (permissions_cookies_store cfg) eqn:Hon.
    + right. split; [done|]. by exists now.
    + left. unfold cookies.save. by rewrite Hon.
Qed.

(** With persistence off the cookies file is never written, whatever is
    done with the jar and for however long: a file left by an earlier run
    stays as it is (the FIXME of [save]). *)
Theorem file_kept_without_persistence `{cookies.QtCookies}
    (cfg : Config) (jar jar' : cookies.CookieJar) :
  permissions_cookies_store cfg = false ->
  rtc (life.jar_step cfg) jar jar' ->
  cookies._linecp jar' = cookies._linecp jar.
Proof.
  intros Hoff Hrun. induction Hrun as [jar|jar mid jar' Hstep _ IH]; [done|].
  rewrite IH. destruct (jar_step_linecp _ _ _ Hstep) as [?|[Hon _]]; [done|].
  congruence.
Qed.

Lemma save_then_init_witness :
  cookies.allCookies
    (cookies.init (H := more_examples.qt_known)
       (cookies.file (cookies._linecp
          (snd (cookies.save (H := more_examples.qt_known)
                  examples.never_cfg 5000 examples.jar0)))))
  = [examples.fresh_cookie].
Proof.
  apply (save_then_init (H := more_examples.qt_known)
           examples.never_cfg 5000 examples.jar0); [reflexivity..|].
  repeat constructor.
Defined.

Lemma file_kept_without_persistence_witness :
  cookies._linecp
    (snd (cookies.save (H := more_examples.qt_known)
            more_examples.cfg_no_store 5000
            (snd (cookies.setCookiesFromUrl (H := more_examples.qt_known)
                    more_examples.cfg_no_store [examples.fresh_cookie]
                    "http://example.com/"
                    (cookies.init (H := more_examples.qt_known) ["old=1"])))))
  = cookies.LineConfigParser_open ["old=1"].
Proof.
  apply (file_kept_without_persistence (H := more_examples.qt_known)
           more_examples.cfg_no_store
           (cookies.init (H := more_examples.qt_known) ["old=1"]));
    [reflexivity|].
  eapply rtc_l; [apply life.jar_setCookiesFromUrl|].
  eapply rtc_l; [apply life.jar_save|].
  apply rtc_refl.
Defined.

(** The jar of that run still holds both cookies: only the file is left
    out. *)
Example file_kept_without_persistence_jar :
  cookies.allCookies
    (snd (cookies.save (H := more_examples.qt_known)
            more_examples.cfg_no_store 5000
            (snd (cookies.setCookiesFromUrl (H := more_examples.qt_known)
                    more_examples.cfg_no_store [examples.fresh_cookie]
                    "http://example.com/"
                    (cookies.init (H := more_examples.qt_known) ["old=1"])))))
  = [examples.old_cookie; examples.fresh_cookie].
Proof. reflexivity. Qed.

(** * More on the network manager *)

(** The authentication slots.  A prompt that is cancelled leaves the
    authenticator exactly as it was: nothing is written, empty credentials
    least of all, and credentials an earlier answer set are kept.  An answer
    sets the user and the password and never the realm.  The two slots
    never ask the same text, whatever the realms. *)
Theorem authentication_slots (ask : authentication.Ask)
    (a : authentication.QAuthenticator) :
  (ask ("Username (" +:+ authentication.realm a +:+ "):")
       authentication.user_pwd = None ->
   authentication.on_authentication_required ask a = a) /\
  (ask ("Proxy username (" +:+ authentication.realm a +:+ "):")
       authentication.user_pwd = None ->
   authentication.on_proxy_authentication_required ask a = a) /\
  (forall u p,
     ask ("Username (" +:+ authentication.realm a +:+ "):")
         authentication.user_pwd = Some (u, p) ->
     authentication.on_authentication_required ask a
     = {| authentication.realm := authentication.realm a;
          authentication.user := u; authentication.password := p |}) /\
  (forall u p,
     ask ("Proxy username (" +:+ authentication.realm a +:+ "):")
         authentication.user_pwd = Some (u, p) ->
     authentication.on_proxy_authentication_required ask a
     = {| authentication.realm := authentication.realm a;
          authentication.user := u; authentication.password := p |}) /\
  (forall r r' : string,
     "Username (" +:+ r +:+ "):" <> "Proxy username (" +:+ r' +:+ "):").
Proof.
  unfold authentication.on_authentication_required,
    authentication.on_proxy_authentication_required.
  split_and!.
  - by intros ->.
  - by intros ->.
  - by intros u p ->.
  - by intros u p ->.
  - intros r r'. simpl. discriminate.
Qed.

(** The user answers the site's prompt and then cancels the proxy's: the
    credentials of the first answer are still there. *)
Lemma authentication_slots_witness :
  authentication.on_proxy_authentication_required more_examples.ask_site_only
    (authentication.on_authentication_required more_examples.ask_site_only
       more_examples.authenticator0)
  = {| authentication.realm := "intranet";
       authentication.user := "alice";
       authentication.password := "secret" |}.
Proof.
  destruct (authentication_slots more_examples.ask_site_only
              more_examples.authenticator0) as (_ & _ & Hsite & _ & _).
  rewrite (Hsite "alice" "secret") by reflexivity.
  destruct (authentication_slots more_examples.ask_site_only
              {| authentication.realm := "intranet";
                 authentication.user := "alice";
                 authentication.password := "secret" |})
    as (_ & Hproxy & _).
  apply Hproxy. reflexivity.
Defined.

Lemma filter_map_none {A B} (p : B -> bool) (f : A -> B) (l : list A) :
  (forall x, p (f x) = false) -> List.filter p (List.map f l) = [].
Proof.
  intros Hp. induction l as [|x l IH]; simpl; [done|]. by rewrite Hp.
Qed.

Lemma filter_flat_map_none {A B} (p : B -> bool) (f : A -> list B)
    (l : list A) :
  (forall x, List.filter p (f x) = []) -> List.filter p (flat_map f l) = [].
Proof.
  intros Hp. induction l as [|x l IH]; simpl; [done|].
  by rewrite List.filter_app, Hp, IH.
Qed.

(** [createRequest], with the calls it makes. *)
Lemma createRequest_cases_calls env op req outgoing_data nm :
  snd (networkmanager.createRequest env op req outgoing_data nm) = nm \/
  exists req',
    let reply :=
      networkmanager.NetworkReply (networkmanager.next_obj nm)
        (networkmanager.networkAccessible nm) op req' outgoing_data in
    snd (networkmanager.createRequest env op req outgoing_data nm) =
    networkmanager.with_calls
      ((if networkmanager.PYQT_VERSION env <? 0x050301
        then [networkmanager.disable_qt_msghandler_enter;
              networkmanager.transport_createRequest op req' outgoing_data;
              networkmanager.disable_qt_msghandler_exit]
        else [networkmanager.transport_createRequest op req' outgoing_data])
       ++ [networkmanager.destroyed_connect reply])
      (networkmanager.with_requests
         (networkmanager._requests nm ++ [reply])
         (networkmanager.with_next_obj (S (networkmanager.next_obj nm)) nm)).
Proof.
  destruct (decide (networkmanager.scheme (networkmanager.url req) = "https"
                    /\ networkmanager.SSL_AVAILABLE env = false))
    as [[Hs Ha]|Hssl].
  { left. by rewrite createRequest_ssl_unavailable. }
  destruct (networkmanager._scheme_handlers nm
              !! networkmanager.scheme (networkmanager.url req))
    as [handler|] eqn:Hh.
  { left. by rewrite (createRequest_scheme_handler _ _ _ _ _ handler). }
  destruct (network_accept_language (networkmanager.config env))
    as [al|] eqn:Hal.
  - destruct (encode_ascii al) as [al'|e] eqn:Henc.
    + right. eexists. cbv zeta.
      rewrite createRequest_transport_path; [reflexivity|done..|].
      intros al0. rewrite Hal. intros [= <-].
      by rewrite Henc, (encode_ascii_Ok _ _ Henc).
    + left.
      destruct (createRequest_cases env op req outgoing_data nm)
        as [?|(req' & made & Heq)]; [done|].
      exfalso. unfold networkmanager.createRequest in Heq.
      assert (Hguard : String.eqb (networkmanager.scheme (networkmanager.url req))
                         "https"
                       && negb (networkmanager.SSL_AVAILABLE env) = false).
      { destruct (String.eqb_spec
                    (networkmanager.scheme (networkmanager.url req)) "https")
          as [Hs|Hs]; [|done].
        destruct (networkmanager.SSL_AVAILABLE env) eqn:Ha; [done|].
        exfalso. by apply Hssl. }
      rewrite Hguard in Heq. unfold bind at 1, gets at 1 in Heq.
      cbv beta iota in Heq. rewrite Hh, Hal in Heq.
      unfold bind at 1 in Heq. unfold bind at 1 in Heq. unfold lift in Heq.
      rewrite Henc in Heq. simpl in Heq.
      apply (f_equal networkmanager.next_obj) in Heq. simpl in Heq. lia.
  - right. eexists. cbv zeta.
    rewrite createRequest_transport_path; [reflexivity|done..|].
    intros al0. by rewrite Hal.
Qed.

Lemma on_destroyed_cases obj nm :
  snd (networkmanager.on_destroyed obj nm) = nm \/
  exists rs,
    list_remove obj (networkmanager._requests nm) = Some rs /\
    snd (networkmanager.on_destroyed obj nm)
    = networkmanager.with_requests rs nm.
Proof.
  unfold networkmanager.on_destroyed, bind, gets. simpl.
  destruct (list_remove obj (networkmanager._requests nm)) as [rs|];
    [right; by exists rs|by left].
Qed.

(** What one event can do to the manager. *)
Lemma step_frame env nm nm' :
  networkmanager.step env nm nm' ->
  networkmanager._scheme_handlers nm' = networkmanager._scheme_handlers nm /\
  (networkmanager.networkAccessible nm' = networkmanager.networkAccessible nm \/
   networkmanager.networkAccessible nm' = networkmanager.NotAccessible) /\
  (networkmanager.next_obj nm <= networkmanager.next_obj nm')%nat /\
  networkmanager.calls nm `prefix_of` networkmanager.calls nm'.
Proof.
  intros [op req outgoing_data m|obj m|m|reply errors m].
  - destruct (createRequest_cases env op req outgoing_data m)
      as [->|(req' & made & ->)]; simpl.
    + split_and!; [done|by left|lia|done].
    + split_and!; [done|by left|lia|by apply prefix_app_r].
  - destruct (on_destroyed_cases obj m) as [->|(rs & _ & ->)]; simpl;
      (split_and!; [done|by left|lia|done]).
  - rewrite shutdown_eq. simpl.
    split_and!; [done|by right|lia|by apply prefix_app_r].
  - rewrite on_ssl_errors_eq. simpl.
    destruct (network_ssl_strict (networkmanager.config env)); simpl;
      (split_and!; [done|by left|lia|]); [done|by apply prefix_app_r].
Qed.

(** The handlers never change.  No event of a manager's life touches
    [_scheme_handlers]: after any number of requests, destroyed replies,
    shutdowns and TLS errors the dict is the one the manager had before.
    So for the whole life of a manager it is the dict of the constructor:
    the scheme 'qute' and no other has a handler, and it is the handler
    the constructor was given. *)
Theorem scheme_handlers_never_change (env : networkmanager.Environment)
    (nm nm' : networkmanager.NetworkManager) :
  rtc (networkmanager.step env) nm nm' ->
  networkmanager._scheme_handlers nm' = networkmanager._scheme_handlers nm /\
  (forall qute accessible,
     nm = networkmanager.init qute accessible ->
     networkmanager._scheme_handlers nm' = {[ "qute" := qute ]} /\
     networkmanager._scheme_handlers nm' !! "qute" = Some qute /\
     (forall s, is_Some (networkmanager._scheme_handlers nm' !! s)
                <-> s = "qute")).
Proof.
  intros Hrun.
  assert (Hsame : networkmanager._scheme_handlers nm'
                  = networkmanager._scheme_handlers nm).
  { induction Hrun as [m|m mid m' Hstep _ IH]; [done|].
    rewrite IH. by destruct (step_frame _ _ _ Hstep) as [-> _]. }
  split; [exact Hsame|].
  intros qute accessible ->. rewrite Hsame. simpl.
  split_and!; [done|by rewrite lookup_singleton_eq|].
  intros s. destruct (decide (s = "qute")) as [->|Hne].
  - by rewrite lookup_singleton_eq.
  - rewrite lookup_singleton_ne by done. split; [by intros [? ?]|done].
Qed.

(** A request and a shutdown later the handler is still the one the
    constructor was given, and 'about' has none. *)
Lemma scheme_handlers_never_change_witness :
  networkmanager._scheme_handlers
    (snd (networkmanager.shutdown examples.nm1)) !! "qute"
  = Some examples.qute /\
  ~ is_Some (networkmanager._scheme_handlers
               (snd (networkmanager.shutdown examples.nm1)) !! "about").
Proof.
  assert (Hrun : rtc (networkmanager.step examples.env) examples.nm0
                   (snd (networkmanager.shutdown examples.nm1))).
  { eapply rtc_l; [apply networkmanager.step_createRequest|].
    eapply rtc_l; [apply networkmanager.step_shutdown|].
    apply rtc_refl. }
  destruct (scheme_handlers_never_change _ _ _ Hrun) as [_ Hinit].
  destruct (Hinit examples.qute networkmanager.Accessible eq_refl)
    as (_ & Hqute & Hiff).
  split; [exact Hqute|].
  intros Habout. apply Hiff in Habout. discriminate Habout.
Defined.

(** After [shutdown] the manager never becomes accessible again, whatever
    happens next, and every reply in the tracker either was tracked at the
    shutdown, and then [abort()] and [deleteLater()] were called on it, or
    was made by a transport that was called with the manager not
    accessible. *)
Theorem after_shutdown (env : networkmanager.Environment)
    (nm nm' : networkmanager.NetworkManager) :
  rtc (networkmanager.step env) (snd (networkmanager.shutdown nm)) nm' ->
  networkmanager.networkAccessible nm' = networkmanager.NotAccessible /\
  (forall r,
     r ∈ networkmanager._requests nm' ->
     (r ∈ networkmanager._requests nm /\
      networkmanager.abort r ∈ networkmanager.calls nm' /\
      networkmanager.deleteLater r ∈ networkmanager.calls nm') \/
     exists obj op req outgoing_data,
       r = networkmanager.NetworkReply obj networkmanager.NotAccessible
             op req outgoing_data).
Proof.
  intros Hrun. pattern nm'. revert nm' Hrun. apply rtc_ind_r;
    [|intros mid last Hrun Hstep [Hoff Hold]].
  - rewrite shutdown_eq. simpl. split; [done|].
    intros r Hr. left. split; [done|].
    rewrite !elem_of_app. split; right;
      apply list_elem_of_In, in_flat_map; exists r;
      (split; [by apply list_elem_of_In|simpl; auto]).
  - destruct (step_frame _ _ _ Hstep) as (_ & Hacc & _ & Hcalls).
    split; [destruct Hacc as [-> | ->]; done|].
    assert (Holder : forall r, r ∈ networkmanager._requests mid ->
      (r ∈ networkmanager._requests nm /\
       networkmanager.abort r ∈ networkmanager.calls last /\
       networkmanager.deleteLater r ∈ networkmanager.calls last) \/
      exists obj op req outgoing_data,
        r = networkmanager.NetworkReply obj networkmanager.NotAccessible
              op req outgoing_data).
    { intros r Hr. destruct (Hold r Hr) as [(Hin & Ha & Hd)|Hnew];
        [left|by right].
      destruct Hcalls as [more ->]. rewrite !elem_of_app. auto. }
    destruct Hstep as [op req outgoing_data m|obj m|m|reply errors m].
    + destruct (createRequest_cases env op req outgoing_data m)
        as [Heq|(req' & made & Heq)]; rewrite Heq in *; [exact Holder|].
      simpl in *. intros r. rewrite elem_of_app, list_elem_of_singleton.
      intros [Hr| ->]; [by apply Holder|].
      right. rewrite Hoff. by eexists _, _, _, _.
    + destruct (on_destroyed_cases obj m) as [Heq|(rs & Hrm & Heq)];
        rewrite Heq in *; [exact Holder|].
      simpl in *. intros r Hr. apply Holder.
      clear -Hrm Hr. revert rs Hrm Hr.
      induction (networkmanager._requests m) as [|y l IH]; intros rs;
        simpl; [done|].
      destruct (decide (y = obj)) as [->|Hne].
      * intros [= <-] Hr. by right.
      * rewrite fmap_Some. intros (rs' & Hrs' & ->).
        rewrite !elem_of_cons. intros [->|Hr]; [by left|].
        right. by apply (IH rs').
    + rewrite shutdown_eq in *. exact Holder.
    + rewrite on_ssl_errors_eq in *.
      by destruct (network_ssl_strict (networkmanager.config env)).
Qed.

Lemma after_shutdown_witness :
  let last :=
    snd (networkmanager.createRequest examples.env networkmanager.GetOperation
           (examples.request "http" "//example.org/") None
           (snd (networkmanager.shutdown examples.nm1))) in
  networkmanager.networkAccessible last = networkmanager.NotAccessible /\
  length (networkmanager._requests last) = 2%nat.
Proof.
  intros last.
  destruct (after_shutdown examples.env examples.nm1 last) as [Hoff _].
  - eapply rtc_l; [apply networkmanager.step_createRequest|apply rtc_refl].
  - split; [exact Hoff|reflexivity].
Defined.

Lemma count_calls_step (p : networkmanager.Call -> bool) env nm nm' :
  p (networkmanager.disable_qt_msghandler_enter) = false ->
  p (networkmanager.disable_qt_msghandler_exit) = false ->
  (forall t, p (networkmanager.message_error t) = false) ->
  (forall r, p (networkmanager.ignoreSslErrors r) = false) ->
  (forall r, p (networkmanager.abort r) = false) ->
  (forall r, p (networkmanager.deleteLater r) = false) ->
  (forall op req d r,
     length (List.filter p [networkmanager.transport_createRequest op req d;
                            networkmanager.destroyed_connect r]) = 1%nat) ->
  networkmanager.step env nm nm' ->
  (length (List.filter p (networkmanager.calls nm'))
   - length (List.filter p (networkmanager.calls nm)))%nat
  = (networkmanager.next_obj nm' - networkmanager.next_obj nm)%nat /\
  (length (List.filter p (networkmanager.calls nm))
   <= length (List.filter p (networkmanager.calls nm')))%nat.
Proof.
  intros Henter Hexit Herr Hign Habort Hdel Hone
    [op req outgoing_data m|obj m|m|reply errors m].
  - destruct (createRequest_cases_calls env op req outgoing_data m)
      as [->|(req' & Heq)]; [split; lia|].
    cbv zeta in Heq. rewrite Heq. simpl.
    rewrite List.filter_app, length_app.
    match goal with |- context [List.filter p (?a ++ [?b])] =>
      assert (Hnew : length (List.filter p (a ++ [b])) = 1%nat) end.
    { specialize (Hone op req' outgoing_data
        (networkmanager.NetworkReply (networkmanager.next_obj m)
           (networkmanager.networkAccessible m) op req' outgoing_data)).
      destruct (networkmanager.PYQT_VERSION env <? 0x050301); simpl in *;
        rewrite ?Henter, ?Hexit; exact Hone. }
    rewrite Hnew. split; lia.
  - destruct (on_destroyed_cases obj m) as [->|(rs & _ & ->)]; simpl;
      split; lia.
  - rewrite shutdown_eq. simpl. rewrite List.filter_app, length_app.
    rewrite filter_flat_map_none; [simpl; split; lia|].
    intros r. simpl. by rewrite Habort, Hdel.
  - rewrite on_ssl_errors_eq.
    destruct (network_ssl_strict (networkmanager.config env)); simpl;
      [split; lia|].
    rewrite !List.filter_app, !length_app, filter_map_none by done.
    simpl. rewrite Hign. simpl. split; lia.
Qed.

(** The trace of a manager's life.  The transport was called once for each
    reply ever made, and the [destroyed] signal of each was connected once;
    every reply in the tracker has its [destroyed] signal connected; and
    Qt's message handler was switched back on as often as it was switched
    off. *)
Theorem reachable_trace (env : networkmanager.Environment)
    (nm : networkmanager.NetworkManager) :
  networkmanager.reachable env nm ->
  length (List.filter life.is_transport_call (networkmanager.calls nm))
    = networkmanager.next_obj nm /\
  length (List.filter life.is_destroyed_connect (networkmanager.calls nm))
    = networkmanager.next_obj nm /\
  (forall r, r ∈ networkmanager._requests nm ->
             networkmanager.destroyed_connect r ∈ networkmanager.calls nm) /\
  length (List.filter life.is_msghandler_enter (networkmanager.calls nm))
    = length (List.filter life.is_msghandler_exit (networkmanager.calls nm)).
Proof.
  induction 1 as [qute accessible|m m' Hreach (IHt & IHd & IHr & IHm) Hstep].
  - split_and!; try reflexivity. intros r Hr. by apply elem_of_nil in Hr.
  - pose proof (step_frame _ _ _ Hstep) as (_ & _ & Hle & Hcalls).
    split_and!.
    + destruct (count_calls_step life.is_transport_call env m m')
        as [Hd Hl]; try done. lia.
    + destruct (count_calls_step life.is_destroyed_connect env m m')
        as [Hd Hl]; try done. lia.
    + assert (Holder : forall r, r ∈ networkmanager._requests m ->
                networkmanager.destroyed_connect r ∈ networkmanager.calls m').
      { intros r Hr. destruct Hcalls as [more ->].
        rewrite elem_of_app. left. by apply IHr. }
      clear IHt IHd IHm Hle Hcalls.
      destruct Hstep as [op req outgoing_data m|obj m|m|reply errors m].
      * destruct (createRequest_cases_calls env op req outgoing_data m)
          as [Heq|(req' & Heq)].
        { rewrite Heq in *. exact Holder. }
        cbv zeta in Heq. rewrite Heq in *. simpl in *.
        intros r. rewrite elem_of_app, list_elem_of_singleton.
        intros [Hr| ->]; [by apply Holder|].
        rewrite !elem_of_app, list_elem_of_singleton. auto.
      * destruct (on_destroyed_cases obj m) as [Heq|(rs & Hrm & Heq)];
          rewrite Heq in *; [exact Holder|].
        simpl in *. intros r Hr. apply IHr.
        clear -Hrm Hr. revert rs Hrm Hr.
        induction (networkmanager._requests m) as [|y l IH]; intros rs;
          simpl; [done|].
        destruct (decide (y = obj)) as [->|Hne].
        -- intros [= <-] Hr. by right.
        -- rewrite fmap_Some. intros (rs' & Hrs' & ->).
           rewrite !elem_of_cons. intros [->|Hr]; [by left|].
           right. by apply (IH rs').
      * rewrite shutdown_eq in *. exact Holder.
      * rewrite on_ssl_errors_eq in *.
        by destruct (network_ssl_strict (networkmanager.config env)).
    + clear IHr.
      assert (Hsame : forall l more,
        length (List.filter life.is_msghandler_enter l)
          = length (List.filter life.is_msghandler_exit l) ->
        length (List.filter life.is_msghandler_enter more)
          = length (List.filter life.is_msghandler_exit more) ->
        length (List.filter life.is_msghandler_enter (l ++ more))
          = length (List.filter life.is_msghandler_exit (l ++ more))).
      { intros l more Hl Hmore.
        rewrite !List.filter_app, !length_app. lia. }
      destruct Hstep as [op req outgoing_data m|obj m|m|reply errors m].
      * destruct (createRequest_cases_calls env op req outgoing_data m)
          as [->|(req' & ->)]; [done|].
        simpl. apply Hsame; [done|].
        by destruct (networkmanager.PYQT_VERSION env <? 0x050301).
      * by destruct (on_destroyed_cases obj m) as [->|(rs & _ & ->)].
      * rewrite shutdown_eq. simpl. apply Hsame; [done|].
        by rewrite !filter_flat_map_none.
      * rewrite on_ssl_errors_eq.
        destruct (network_ssl_strict (networkmanager.config env)); [done|].
        simpl. apply Hsame; [done|].
        rewrite !List.filter_app, !filter_map_none by done. done.
Qed.

Lemma reachable_trace_witness :
  networkmanager.reachable examples.env examples.nm1 /\
  length (List.filter life.is_transport_call
            (networkmanager.calls examples.nm1)) = 1%nat /\
  networkmanager.destroyed_connect examples.reply1
    ∈ networkmanager.calls examples.nm1.
Proof.
  assert (Hreach : networkmanager.reachable examples.env examples.nm1).
  { apply (networkmanager.reachable_step _ examples.nm0).
    - apply networkmanager.reachable_init.
    - apply networkmanager.step_createRequest. }
  destruct (reachable_trace examples.env examples.nm1 Hreach)
    as (Ht & _ & Hr & _).
  split; [exact Hreach|]. split; [exact Ht|].
  apply Hr. apply list_elem_of_In. vm_compute. by left.
Defined.

(** * The readline bridge *)

Lemma update_eq {W} (w : readline.WidgetId) (e : W) edits :
  readline.update w e edits w = e.
Proof. unfold readline.update. by rewrite decide_True. Qed.

Lemma update_ne {W} (w w' : readline.WidgetId) (e : W) edits :
  w' <> w -> readline.update w e edits w' = edits w'.
Proof. intros Hne. unfold readline.update. by rewrite decide_False. Qed.

Lemma widget_on_widget {W} `{!readline.QLineEditApi W} w method
    (s : readline.State W) :
  readline.widget (readline.on_widget w method s) = readline.widget s.
Proof. reflexivity. Qed.

(** A command without a target does nothing.  When no widget has the
    focus, or the widget that has it is not a [QLineEdit], each of the
    thirteen commands leaves the line edits and [deleted] as they are; and
    so does [rl_yank] on a line edit in which nothing was killed yet. *)
Theorem command_without_target {W : Type} `{!readline.QLineEditApi W}
    (s : readline.State W) :
  (readline.focusWidget s = None \/
   (exists id, readline.focusWidget s = Some (readline.OtherWidget id)) ->
   forall c, readline.run c s = s) /\
  (forall w, readline.focusWidget s = Some (readline.LineEdit w) ->
             readline.deleted s !! w = None ->
             readline.rl_yank s = s).
Proof.
  split.
  - intros Hfocus c.
    assert (Hnone : readline.widget s = None).
    { unfold readline.widget. by destruct Hfocus as [->|[id ->]]. }
    destruct c; simpl;
      unfold readline.rl_backward_char, readline.rl_forward_char,
        readline.rl_backward_word, readline.rl_forward_word,
        readline.rl_beginning_of_line, readline.rl_end_of_line,
        readline.rl_unix_line_discard, readline.rl_kill_line,
        readline.rl_unix_word_rubout, readline.rl_kill_word,
        readline.rl_yank, readline.rl_delete_char,
        readline.rl_backward_delete_char;
      by rewrite Hnone.
  - intros w Hfocus Hnever. unfold readline.rl_yank, readline.widget.
    by rewrite Hfocus, Hnever.
Qed.

Lemma run_elsewhere {W : Type} `{!readline.QLineEditApi W}
    (c : readline.Command) (s : readline.State W) (w' : readline.WidgetId) :
  readline.widget s <> Some w' ->
  readline.lineEdits (readline.run c s) w' = readline.lineEdits s w' /\
  readline.deleted (readline.run c s) !! w' = readline.deleted s !! w' /\
  readline.focusWidget (readline.run c s) = readline.focusWidget s.
Proof.
  intros Hother.
  destruct (readline.widget s) as [w|] eqn:Hw.
  - assert (Hne : w' <> w) by congruence.
    destruct c; simpl;
      unfold readline.rl_backward_char, readline.rl_forward_char,
        readline.rl_backward_word, readline.rl_forward_word,
        readline.rl_beginning_of_line, readline.rl_end_of_line,
        readline.rl_unix_line_discard, readline.rl_kill_line,
        readline.rl_unix_word_rubout, readline.rl_kill_word,
        readline.rl_yank, readline.rl_delete_char,
        readline.rl_backward_delete_char;
      rewrite Hw; try destruct (readline.deleted s !! w); simpl;
      rewrite ?update_ne, ?lookup_insert_ne by done; done.
  - destruct c; simpl;
      unfold readline.rl_backward_char, readline.rl_forward_char,
        readline.rl_backward_word, readline.rl_forward_word,
        readline.rl_beginning_of_line, readline.rl_end_of_line,
        readline.rl_unix_line_discard, readline.rl_kill_line,
        readline.rl_unix_word_rubout, readline.rl_kill_word,
        readline.rl_yank, readline.rl_delete_char,
        readline.rl_backward_delete_char;
      by rewrite Hw.
Qed.

(** A command works on the line edit that has the focus and on nothing
    else: every other line edit and every other entry of [deleted] is as
    before, and the focus stays where it is. *)
Theorem command_frame {W : Type} `{!readline.QLineEditApi W}
    (c : readline.Command) (s : readline.State W) (w' : readline.WidgetId) :
  readline.focusWidget s <> Some (readline.LineEdit w') ->
  readline.lineEdits (readline.run c s) w' = readline.lineEdits s w' /\
  readline.deleted (readline.run c s) !! w' = readline.deleted s !! w' /\
  readline.focusWidget (readline.run c s) = readline.focusWidget s.
Proof.
  intros Hother. apply run_elsewhere. intros Hw. apply Hother.
  unfold readline.widget in Hw.
  destruct (readline.focusWidget s) as [[id|id]|]; congruence.
Qed.

Lemma run_deleted {W} `{!readline.QLineEditApi W} c (s : readline.State W) :
  readline.deleted (readline.run c s) = readline.deleted s \/
  readline.is_kill c = true /\
  exists w text,
    readline.widget s = Some w /\
    readline.deleted (readline.run c s) = <[w := text]> (readline.deleted s).
Proof.
  destruct (readline.widget s) as [w|] eqn:Hw;
    destruct c; simpl;
    unfold readline.rl_backward_char, readline.rl_forward_char,
      readline.rl_backward_word, readline.rl_forward_word,
      readline.rl_beginning_of_line, readline.rl_end_of_line,
      readline.rl_unix_line_discard, readline.rl_kill_line,
      readline.rl_unix_word_rubout, readline.rl_kill_word,
      readline.rl_yank, readline.rl_delete_char,
      readline.rl_backward_delete_char;
    rewrite Hw; try destruct (readline.deleted s !! w); simpl;
    try (by left); right; (split; [done|]); by eexists _, _.
Qed.

(** The kill buffers.  Only the four kill commands write [deleted], and
    each writes the entry of the line edit that has the focus; no command
    and no change of focus ever removes an entry: a line edit that was
    killed in once can be yanked into for the rest of the run, and the
    dict keeps an entry for every line edit that was ever killed in. *)
Theorem deleted_only_grows {W : Type} `{!readline.QLineEditApi W}
    (s s' : readline.State W) :
  rtc readline.step s s' ->
  (forall w, is_Some (readline.deleted s !! w) ->
             is_Some (readline.deleted s' !! w)) /\
  (forall c, readline.is_kill c = false ->
             readline.deleted (readline.run c s') = readline.deleted s') /\
  (forall c w, readline.is_kill c = true ->
               readline.focusWidget s' = Some (readline.LineEdit w) ->
               is_Some (readline.deleted (readline.run c s') !! w)).
Proof.
  intros Hrun. split_and!.
  - induction Hrun as [s|s mid s' Hstep _ IH]; [done|].
    intros w Hw. apply IH.
    destruct Hstep as [c s|focus s]; [|done].
    destruct (run_deleted c s) as [->|(_ & w0 & text & _ & ->)]; [done|].
    destruct (decide (w0 = w)) as [->|Hne].
    + by rewrite lookup_insert_eq.
    + by rewrite lookup_insert_ne.
  - intros c Hc.
    destruct (run_deleted c s') as [?|(Hk & _)]; [done|congruence].
  - intros c w Hc Hfocus.
    assert (Hw : readline.widget s' = Some w).
    { unfold readline.widget. by rewrite Hfocus. }
    destruct c; try discriminate Hc; simpl;
      unfold readline.rl_unix_line_discard, readline.rl_kill_line,
        readline.rl_unix_word_rubout, readline.rl_kill_word;
      rewrite Hw; simpl; by rewrite lookup_insert_eq.
Qed.

Ltac nat_cases :=
  repeat match goal with
  | |- context [(?a <? ?b)%nat] => destruct (Nat.ltb_spec a b)
  | |- context [(?a <=? ?b)%nat] => destruct (Nat.leb_spec a b)
  | |- context [Nat.eqb ?a ?b] => destruct (Nat.eqb_spec a b)
  | |- context [(?a =? ?b)%Z] => destruct (Z.eqb_spec a b)
  | |- context [(?a <? ?b)%Z] => destruct (Z.ltb_spec a b)
  end.

Lemma take_middle_drop {A} (lo hi : nat) (l : list A) :
  (lo <= hi)%nat ->
  take lo l ++ take (hi - lo) (drop lo l) ++ drop hi l = l.
Proof.
  intros Hle. replace hi with (lo + (hi - lo))%nat at 2 by lia.
  by rewrite <- drop_drop, take_drop, take_drop.
Qed.

(** Killing from the cursor to [pos] and yanking at once: the text is as
    before and the cursor behind what was put back. *)
Lemma kill_then_yank (pos : nat) (e : readline.QLineEdit) :
  readline.well_formed e ->
  (readline.selend e <= readline.selstart e)%nat ->
  pos <> readline.cursor e ->
  (pos <= length (readline.text e))%nat ->
  readline.QLineEdit_insert
    (readline.QLineEdit_selectedText (readline.moveCursor pos true e))
    (readline.QLineEdit_del (readline.moveCursor pos true e))
  = {| readline.text := readline.text e;
       readline.cursor := Nat.max (readline.cursor e) pos;
       readline.selstart := 0; readline.selend := 0;
       readline.maxLength := readline.maxLength e |}.
Proof.
  destruct e as [t c ss se mx]. unfold readline.well_formed. simpl.
  intros (Hc & Hmx & _) Hnosel Hne Hpos.
  unfold readline.moveCursor. simpl.
  assert (Hanchor : (ss <? se)%nat = false) by (apply Nat.ltb_ge; lia).
  rewrite Hanchor. simpl.
  set (lo := Nat.min c pos). set (hi := Nat.max c pos).
  assert (Hlo : (lo < hi)%nat) by (unfold lo, hi; lia).
  assert (Hhi : (hi <= length t)%nat) by (unfold hi; lia).
  assert (Hsel : readline.hasSelectedText
            {| readline.text := t; readline.cursor := pos;
               readline.selstart := lo; readline.selend := hi;
               readline.maxLength := mx |} = true).
  { unfold readline.hasSelectedText. simpl. nat_cases; simpl; lia. }
  unfold readline.QLineEdit_selectedText, readline.QLineEdit_del.
  rewrite Hsel. unfold readline.removeSelectedText. simpl.
  assert (Hcond : (lo <? hi)%nat && (hi <=? length t)%nat = true).
  { nat_cases; simpl; lia. }
  rewrite Hcond. unfold readline.QLineEdit_insert, readline.removeSelectedText.
  simpl.
  assert (Hcur : (if (lo <? pos)%nat then (pos - (Nat.min pos hi - lo))%nat
                  else pos) = lo).
  { nat_cases; unfold lo, hi in *; lia. }
  rewrite Hcur.
  rewrite !length_app, !length_take, !length_drop.
  nat_cases; try lia.
  all: f_equal.
  all: rewrite ?length_take, ?length_drop; try (unfold lo, hi in *; lia).
  all: rewrite take_app_length', drop_app_length'
         by (rewrite length_take; lia).
  all: rewrite ?(take_ge (take (hi - lo) (drop lo t)))
         by (rewrite length_take, length_drop; lia).
  all: by apply take_middle_drop; lia.
Qed.

Lemma well_formed_moveCursor pos mark e :
  readline.well_formed e -> (pos <= length (readline.text e))%nat ->
  readline.well_formed (readline.moveCursor pos mark e).
Proof.
  destruct e as [t c ss se mx]. unfold readline.well_formed, readline.moveCursor.
  simpl. intros (Hc & Hmx & Hsel) Hpos.
  destruct mark; simpl; [|split_and!; lia].
  split_and!; [lia..|]. nat_cases; simpl; lia.
Qed.

Lemma well_formed_removeSelectedText e :
  readline.well_formed e ->
  readline.well_formed (readline.removeSelectedText e) /\
  (readline.selend (readline.removeSelectedText e)
   <= readline.selstart (readline.removeSelectedText e))%nat.
Proof.
  destruct e as [t c ss se mx].
  unfold readline.well_formed, readline.removeSelectedText.
  simpl. intros (Hc & Hmx & Hsel).
  nat_cases; simpl; rewrite ?length_app, ?length_take, ?length_drop;
    split_and!; try lia.
Qed.

Lemma well_formed_del e :
  readline.well_formed e -> readline.well_formed (readline.QLineEdit_del e).
Proof.
  intros Hwf. unfold readline.QLineEdit_del.
  destruct (readline.hasSelectedText e) eqn:Hsel;
    [by apply well_formed_removeSelectedText|].
  destruct e as [t c ss se mx].
  unfold readline.well_formed, readline.hasSelectedText in *. simpl in *.
  destruct Hwf as (Hc & Hmx & Hs).
  assert (Hnone : (se <= ss)%nat \/ length t = 0%nat).
  { revert Hsel. nat_cases; simpl; try done; lia. }
  nat_cases; simpl; rewrite ?length_app, ?length_take, ?length_drop;
    split_and!; lia.
Qed.

Lemma well_formed_backspace e :
  readline.well_formed e ->
  readline.well_formed (readline.QLineEdit_backspace e).
Proof.
  intros Hwf. unfold readline.QLineEdit_backspace.
  destruct (readline.hasSelectedText e) eqn:Hsel;
    [by apply well_formed_removeSelectedText|].
  destruct e as [t c ss se mx].
  unfold readline.well_formed, readline.hasSelectedText in *. simpl in *.
  destruct Hwf as (Hc & Hmx & Hs).
  assert (Hnone : (se <= ss)%nat \/ length t = 0%nat).
  { revert Hsel. nat_cases; simpl; try done; lia. }
  nat_cases; simpl; rewrite ?length_app, ?length_take, ?length_drop;
    split_and!; lia.
Qed.

Lemma well_formed_insert new e :
  readline.well_formed e ->
  readline.well_formed (readline.QLineEdit_insert new e).
Proof.
  intros Hwf. unfold readline.QLineEdit_insert.
  destruct (well_formed_removeSelectedText e Hwf) as [Hwf' Hnosel].
  destruct (readline.removeSelectedText e) as [t c ss se mx].
  unfold readline.well_formed in *. simpl in *.
  destruct Hwf' as (Hc & Hmx & Hs).
  nat_cases; simpl; rewrite ?length_app, ?length_take, ?length_drop;
    split_and!; lia.
Qed.

(** No command takes a line edit out of bounds.  When Qt's word motion
    stays within the text, every command leaves every line edit with its
    cursor within the text, its selection within the text, and its text no
    longer than the maximal length: what [rl_yank] puts back is cut to the
    room that is left. *)
Theorem commands_keep_well_formed
    (previousWord nextWord : readline.Text -> nat -> nat)
    (c : readline.Command) (s : readline.State readline.QLineEdit)
    (w : readline.WidgetId) :
  (forall t p, (p <= length t)%nat ->
     (previousWord t p <= length t)%nat /\ (nextWord t p <= length t)%nat) ->
  readline.well_formed (readline.lineEdits s w) ->
  readline.well_formed
    (readline.lineEdits
       (readline.run (H := readline.QLineEdit_api previousWord nextWord) c s)
       w).
Proof.
  intros Hwords Hwf.
  destruct (decide (readline.widget (W := readline.QLineEdit) s = Some w))
    as [Hw|Hother].
  - pose proof Hwf as (Hc & _ & _).
    destruct (Hwords _ _ Hc) as [Hprev Hnext].
    destruct c; simpl;
      unfold readline.rl_backward_char, readline.rl_forward_char,
        readline.rl_backward_word, readline.rl_forward_word,
        readline.rl_beginning_of_line, readline.rl_end_of_line,
        readline.rl_unix_line_discard, readline.rl_kill_line,
        readline.rl_unix_word_rubout, readline.rl_kill_word,
        readline.rl_yank, readline.rl_delete_char,
        readline.rl_backward_delete_char;
      rewrite Hw; try destruct (readline.deleted s !! w);
      unfold readline.on_widget, readline.set_deleted;
      cbn [readline.lineEdits readline.deleted readline.focusWidget
           readline.cursorBackward readline.cursorForward
           readline.cursorWordBackward readline.cursorWordForward
           readline.home readline.end_ readline.selectedText readline.del_
           readline.insert readline.backspace readline.QLineEdit_api];
      rewrite ?update_eq; try done;
      repeat first
        [ apply well_formed_del | apply well_formed_backspace
        | apply well_formed_insert | apply well_formed_moveCursor ];
      try done; lia.
  - by destruct (run_elsewhere
                   (H := readline.QLineEdit_api previousWord nextWord)
                   c s w Hother) as [-> _].
Qed.

Ltac line_edit_methods :=
  cbn [readline.cursorBackward readline.cursorForward
       readline.cursorWordBackward readline.cursorWordForward
       readline.home readline.end_ readline.selectedText readline.del_
       readline.insert readline.backspace readline.QLineEdit_api].

(** A kill command and then [rl_yank], on the line edit that has the
    focus: the selecting move, [del_()], and [insert()] of what the move
    selected. *)
Lemma kill_then_yank_edit {W : Type} `{!readline.QLineEditApi W}
    (s : readline.State W) (w : readline.WidgetId) :
  readline.focusWidget s = Some (readline.LineEdit w) ->
  let e := readline.lineEdits s w in
  let via (select : W -> W) :=
    readline.insert (readline.selectedText (select e))
      (readline.del_ (select e)) in
  readline.lineEdits (readline.rl_yank (readline.rl_unix_line_discard s)) w
    = via (readline.home true) /\
  readline.lineEdits (readline.rl_yank (readline.rl_kill_line s)) w
    = via (readline.end_ true) /\
  readline.lineEdits (readline.rl_yank (readline.rl_unix_word_rubout s)) w
    = via (readline.cursorWordBackward true) /\
  readline.lineEdits (readline.rl_yank (readline.rl_kill_word s)) w
    = via (readline.cursorWordForward true).
Proof.
  intros Hfocus e via. subst e via.
  unfold readline.rl_yank, readline.rl_unix_line_discard,
    readline.rl_kill_line, readline.rl_unix_word_rubout,
    readline.rl_kill_word, readline.widget.
  rewrite Hfocus.
  unfold readline.on_widget, readline.set_deleted.
  cbn [readline.lineEdits readline.deleted readline.focusWidget].
  rewrite Hfocus, !lookup_insert_eq.
  cbn [readline.lineEdits]. by rewrite !update_eq.
Qed.

(** Kill and yank.  On a line edit without a selection, each kill command
    that has something to kill, followed at once by [rl_yank], gives the
    text back as it was: after [rl_unix_line_discard] and
    [rl_unix_word_rubout] the cursor is where it was too, after
    [rl_kill_line] and [rl_kill_word] it is behind the text put back. *)
Theorem kill_then_yank_restores
    (previousWord nextWord : readline.Text -> nat -> nat)
    (s : readline.State readline.QLineEdit) (w : readline.WidgetId) :
  readline.focusWidget s = Some (readline.LineEdit w) ->
  readline.well_formed (readline.lineEdits s w) ->
  (readline.selend (readline.lineEdits s w)
   <= readline.selstart (readline.lineEdits s w))%nat ->
  let api := readline.QLineEdit_api previousWord nextWord in
  let e := readline.lineEdits s w in
  let restored (c : nat) :=
    {| readline.text := readline.text e; readline.cursor := c;
       readline.selstart := 0; readline.selend := 0;
       readline.maxLength := readline.maxLength e |} in
  ((0 < readline.cursor e)%nat ->
   readline.lineEdits
     (readline.rl_yank (H := api) (readline.rl_unix_line_discard (H := api) s))
     w = restored (readline.cursor e)) /\
  ((readline.cursor e < length (readline.text e))%nat ->
   readline.lineEdits
     (readline.rl_yank (H := api) (readline.rl_kill_line (H := api) s)) w
   = restored (length (readline.text e))) /\
  ((previousWord (readline.text e) (readline.cursor e)
    < readline.cursor e)%nat ->
   readline.lineEdits
     (readline.rl_yank (H := api) (readline.rl_unix_word_rubout (H := api) s))
     w = restored (readline.cursor e)) /\
  ((readline.cursor e < nextWord (readline.text e) (readline.cursor e))%nat ->
   (nextWord (readline.text e) (readline.cursor e)
    <= length (readline.text e))%nat ->
   readline.lineEdits
     (readline.rl_yank (H := api) (readline.rl_kill_word (H := api) s)) w
   = restored (nextWord (readline.text e) (readline.cursor e))).
Proof.
  intros Hfocus Hwf Hnosel api e restored.
  destruct (kill_then_yank_edit (H := api) s w Hfocus)
    as (Hdiscard & Hline & Hrubout & Hword).
  pose proof Hwf as (Hc & _ & _). fold e in Hc, Hwf, Hnosel.
  cbv zeta in Hdiscard, Hline, Hrubout, Hword.
  fold e in Hdiscard, Hline, Hrubout, Hword.
  split_and!.
  - intros Hpos. rewrite Hdiscard. unfold api. line_edit_methods.
    rewrite kill_then_yank by (done || lia).
    unfold restored. f_equal. lia.
  - intros Hpos. rewrite Hline. unfold api. line_edit_methods.
    rewrite kill_then_yank by (done || lia).
    unfold restored. f_equal. lia.
  - intros Hpos. rewrite Hrubout. unfold api. line_edit_methods.
    rewrite kill_then_yank by (done || lia).
    unfold restored. f_equal. lia.
  - intros Hpos Hle. rewrite Hword. unfold api. line_edit_methods.
    rewrite kill_then_yank by (done || lia).
    unfold restored. f_equal. lia.
Qed.

(** A kill with nothing to kill.  On a line edit without a selection:
    with the cursor at the start of the line [rl_unix_line_discard]
    selects nothing, records the empty text and then deletes the character
    to the right of the cursor, which [rl_yank] does not bring back; with
    the cursor at the end of the line [rl_kill_line] leaves the text as it
    is and overwrites what was recorded for the line edit with the empty
    text. *)
Theorem kill_with_nothing_to_kill
    (previousWord nextWord : readline.Text -> nat -> nat)
    (s : readline.State readline.QLineEdit) (w : readline.WidgetId) :
  readline.focusWidget s = Some (readline.LineEdit w) ->
  readline.well_formed (readline.lineEdits s w) ->
  (readline.selend (readline.lineEdits s w)
   <= readline.selstart (readline.lineEdits s w))%nat ->
  let api := readline.QLineEdit_api previousWord nextWord in
  let e := readline.lineEdits s w in
  (readline.cursor e = 0%nat ->
   readline.text
     (readline.lineEdits (readline.rl_unix_line_discard (H := api) s) w)
     = drop 1 (readline.text e) /\
   readline.deleted (readline.rl_unix_line_discard (H := api) s) !! w
     = Some [] /\
   readline.text
     (readline.lineEdits
        (readline.rl_yank (H := api)
           (readline.rl_unix_line_discard (H := api) s)) w)
     = drop 1 (readline.text e)) /\
  (readline.cursor e = length (readline.text e) ->
   readline.text (readline.lineEdits (readline.rl_kill_line (H := api) s) w)
     = readline.text e /\
   readline.deleted (readline.rl_kill_line (H := api) s) !! w = Some []).
Proof.
  intros Hfocus Hwf Hnosel api e.
  destruct (kill_then_yank_edit (H := api) s w Hfocus) as (Hdiscard & _).
  cbv zeta in Hdiscard. rewrite Hdiscard. clear Hdiscard.
  unfold readline.rl_unix_line_discard, readline.rl_kill_line,
    readline.widget.
  rewrite Hfocus.
  unfold readline.on_widget, readline.set_deleted.
  cbn [readline.lineEdits readline.deleted readline.focusWidget].
  rewrite !lookup_insert_eq, !update_eq.
  fold e in Hwf, Hnosel |- *.
  destruct e as [t c ss se mx].
  unfold readline.well_formed in Hwf. simpl in Hwf, Hnosel.
  destruct Hwf as (Hc & Hmx & _).
  assert (Hanchor : (ss <? se)%nat = false) by (apply Nat.ltb_ge; lia).
  split.
  - simpl. intros ->. unfold api. line_edit_methods.
    unfold readline.moveCursor. simpl. rewrite Hanchor. simpl.
    unfold readline.QLineEdit_selectedText, readline.QLineEdit_del,
      readline.hasSelectedText. simpl.
    rewrite andb_false_r.
    unfold readline.QLineEdit_insert, readline.removeSelectedText.
    destruct t as [|a t]; simpl; nat_cases; simpl;
      by rewrite ?take_nil, ?drop_0.
  - simpl. intros ->. unfold api. line_edit_methods.
    unfold readline.moveCursor. simpl. rewrite Hanchor. simpl.
    unfold readline.QLineEdit_selectedText, readline.QLineEdit_del,
      readline.hasSelectedText. simpl.
    rewrite Nat.min_id, Nat.max_id.
    nat_cases; simpl; (done || lia).
Qed.

Lemma span_le (p : Ascii.ascii -> bool) (l : readline.Text) :
  (more_examples.span p l <= length l)%nat.
Proof.
  induction l as [|a l IH]; simpl; [lia|]. destruct (p a); simpl; lia.
Qed.

(** The word motion of the examples stays within the text. *)
Lemma words_within (t : readline.Text) (p : nat) :
  (p <= length t)%nat ->
  (more_examples.previousWord t p <= length t)%nat /\
  (more_examples.nextWord t p <= length t)%nat.
Proof.
  intros Hp. unfold more_examples.previousWord, more_examples.nextWord.
  split; [lia|].
  set (rest := drop p t).
  set (word := more_examples.span (fun a => negb (more_examples.is_space a))
                 rest).
  pose proof (span_le (fun a => negb (more_examples.is_space a)) rest).
  pose proof (span_le more_examples.is_space (drop word rest)) as Hspaces.
  rewrite length_drop in Hspaces.
  assert (length rest = (length t - p)%nat) by apply length_drop.
  fold word in H. lia.
Qed.

Lemma well_formed_edit0 : readline.well_formed more_examples.edit0.
Proof. unfold readline.well_formed. simpl. lia. Qed.

(** With the focus on a widget that is no line edit, [rl_kill_line] changes
    nothing; and [rl_yank] changes nothing in a line edit nothing was
    killed in. *)
Lemma command_without_target_witness :
  readline.run (H := more_examples.line_edit) readline.kill_line
    more_examples.bridge_elsewhere = more_examples.bridge_elsewhere /\
  readline.rl_yank (H := more_examples.line_edit)
    (more_examples.bridge_on more_examples.edit0)
  = more_examples.bridge_on more_examples.edit0.
Proof.
  split.
  - apply (proj1 (@command_without_target _ more_examples.line_edit
                    more_examples.bridge_elsewhere)).
    right. by exists 7%nat.
  - apply (proj2 (@command_without_target _ more_examples.line_edit
                    (more_examples.bridge_on more_examples.edit0)) 1%nat);
      reflexivity.
Defined.

(** Line edit 1 has the focus: [rl_kill_line] leaves line edit 2 and its
    entry of [deleted] alone. *)
Lemma command_frame_witness :
  let s := more_examples.bridge_on more_examples.edit0 in
  let s' := readline.run (H := more_examples.line_edit) readline.kill_line s in
  readline.lineEdits s' 2%nat = more_examples.edit0 /\
  readline.deleted s' !! 2%nat = None /\
  readline.deleted s' !! 1%nat
  = Some (String.list_ascii_of_string "example.org").
Proof.
  intros s s'.
  destruct (@command_frame _ more_examples.line_edit readline.kill_line s
              2%nat) as (Hedit & Hdeleted & _).
  - simpl. discriminate.
  - split_and!; [exact Hedit|exact Hdeleted|reflexivity].
Defined.

(** A word is killed in line edit 1; after a yank and the loss of the
    focus the entry is still there. *)
Lemma deleted_only_grows_witness :
  let s := readline.run (H := more_examples.line_edit) readline.kill_word
             (more_examples.bridge_on more_examples.edit0) in
  let s' := readline.set_focus None
              (readline.run (H := more_examples.line_edit) readline.yank s) in
  is_Some (readline.deleted s' !! 1%nat).
Proof.
  intros s s'.
  apply (proj1 (@deleted_only_grows _ more_examples.line_edit s s'
                  ltac:(eapply rtc_l; [apply (readline.step_run readline.yank)|];
                        eapply rtc_l; [apply (readline.step_focus None)|];
                        apply rtc_refl)) 1%nat).
  by eexists.
Defined.

(** [rl_kill_word] on the command line of the examples. *)
Lemma commands_keep_well_formed_witness :
  readline.well_formed
    (readline.lineEdits
       (readline.run (H := more_examples.line_edit) readline.kill_word
          (more_examples.bridge_on more_examples.edit0)) 1%nat).
Proof.
  apply (commands_keep_well_formed more_examples.previousWord
           more_examples.nextWord).
  - apply words_within.
  - apply well_formed_edit0.
Defined.

(** "open example.org" with the cursor behind "open ": each of the four
    kills followed by a yank gives the line back. *)
Lemma kill_then_yank_restores_witness :
  let s := more_examples.bridge_on more_examples.edit0 in
  let api := more_examples.line_edit in
  readline.lineEdits
    (readline.rl_yank (H := api) (readline.rl_unix_line_discard (H := api) s))
    1%nat = more_examples.edit0 /\
  readline.lineEdits
    (readline.rl_yank (H := api) (readline.rl_kill_line (H := api) s))
    1%nat = more_examples.edit_at_end /\
  readline.lineEdits
    (readline.rl_yank (H := api) (readline.rl_unix_word_rubout (H := api) s))
    1%nat = more_examples.edit0 /\
  readline.lineEdits
    (readline.rl_yank (H := api) (readline.rl_kill_word (H := api) s))
    1%nat = more_examples.edit_at_end.
Proof.
  intros s api.
  destruct (kill_then_yank_restores more_examples.previousWord
              more_examples.nextWord s 1%nat eq_refl well_formed_edit0)
    as (Hdiscard & Hline & Hrubout & Hword).
  - simpl. lia.
  - split_and!.
    + apply Hdiscard. simpl. lia.
    + apply Hline. simpl. lia.
    + apply Hrubout. vm_compute. lia.
    + apply Hword; vm_compute; lia.
Defined.

(** With the cursor at the start, [rl_unix_line_discard] eats the "o" and
    [rl_yank] has nothing to give back; with the cursor at the end,
    [rl_kill_line] records the empty text. *)
Lemma kill_with_nothing_to_kill_witness :
  let api := more_examples.line_edit in
  readline.text
    (readline.lineEdits
       (readline.rl_yank (H := api)
          (readline.rl_unix_line_discard (H := api)
             (more_examples.bridge_on more_examples.edit_at_start))) 1%nat)
  = String.list_ascii_of_string "pen example.org" /\
  readline.deleted
    (readline.rl_kill_line (H := api)
       (more_examples.bridge_on more_examples.edit_at_end)) !! 1%nat
  = Some [].
Proof.
  intros api. split.
  - destruct (kill_with_nothing_to_kill more_examples.previousWord
                more_examples.nextWord
                (more_examples.bridge_on more_examples.edit_at_start) 1%nat)
      as [Hstart _].
    + reflexivity.
    + unfold readline.well_formed. simpl. lia.
    + simpl. lia.
    + destruct (Hstart eq_refl) as (_ & _ & Hyank). apply Hyank.
  - destruct (kill_with_nothing_to_kill more_examples.previousWord
                more_examples.nextWord
                (more_examples.bridge_on more_examples.edit_at_end) 1%nat)
      as [_ Hend].
    + reflexivity.
    + unfold readline.well_formed. simpl. lia.
    + simpl. lia.
    + destruct (Hend eq_refl) as (_ & Hdeleted). apply Hdeleted.
Defined.

(** * The hooks of the test suite *)

Lemma modify_item_plain (p : conftest.Process) (item : conftest.Item) :
  conftest.uses_qapp item = false ->
  conftest.modify_item p item = (conftest.Returned, item).
Proof. intros Hplain. unfold conftest.modify_item. by rewrite Hplain. Qed.

Lemma modifyitems_plain (p : conftest.Process) (items : list conftest.Item) :
  Forall (fun item => conftest.uses_qapp item = false) items ->
  conftest.pytest_collection_modifyitems p items = (conftest.Returned, items).
Proof.
  induction 1 as [|item rest Hplain _ IH]; [done|].
  simpl. by rewrite modify_item_plain, IH.
Qed.

Lemma modifyitems_app (p : conftest.Process) (pre rest : list conftest.Item) :
  Forall (fun item => conftest.uses_qapp item = false) pre ->
  conftest.pytest_collection_modifyitems p (pre ++ rest)
  = (fst (conftest.pytest_collection_modifyitems p rest),
     pre ++ snd (conftest.pytest_collection_modifyitems p rest)).
Proof.
  induction 1 as [|item pre Hplain _ IH]; simpl.
  - by destruct (conftest.pytest_collection_modifyitems p rest).
  - by rewrite modify_item_plain, IH.
Qed.

Lemma uses_qapp_fixturenames (item : conftest.Item) :
  conftest.uses_qapp item = true -> conftest.fixturenames item <> None.
Proof.
  intros Hq Hnone. unfold conftest.uses_qapp in Hq. rewrite Hnone in Hq.
  discriminate Hq.
Qed.

(** What the body of the loop does to one item. *)
Lemma modify_item_keeps (p : conftest.Process) (item : conftest.Item) :
  let item' := snd (conftest.modify_item p item) in
  conftest.nodeid item' = conftest.nodeid item /\
  conftest.is_Function item' = conftest.is_Function item /\
  conftest.fixturenames item' = conftest.fixturenames item /\
  (forall name, is_Some (conftest.get_marker name item) ->
                is_Some (conftest.get_marker name item')) /\
  (forall name, name <> "gui" -> name <> "skipif" ->
                conftest.get_marker name item'
                = conftest.get_marker name item) /\
  (conftest.uses_qapp item = false -> item' = item) /\
  (conftest.fixturenames item = None -> item' = item).
Proof.
  unfold conftest.modify_item.
  destruct (conftest.uses_qapp item) eqn:Hq; [|simpl; by split_and!].
  pose proof (uses_qapp_fixturenames item Hq).
  assert (Hkeep : forall (name key : string) (marker : conftest.Marker)
                    (kw : gmap string conftest.Marker),
            is_Some (kw !! name) -> is_Some (<[key := marker]> kw !! name)).
  { intros name key marker kw Hname. rewrite lookup_insert_is_Some.
    destruct (decide (key = name)); auto. }
  destruct (conftest.no_display p), (conftest.on_CI p); simpl;
    unfold conftest.get_marker; simpl;
    (split_and!; try done;
     [ intros name Hname; by repeat apply Hkeep
     | intros name Hgui Hskip; by rewrite ?lookup_insert_ne by done ]).
Qed.

(** The hook only adds.  Whatever the process and however the hook ends,
    it hands back the same tests in the same order; no test lost a marker,
    and no marker but [gui] and [skipif] was set; a test that does not use
    the [qapp] fixture is not touched at all, a test that has no attribute
    [fixturenames] among them.  The hook never skips, and it raises in one
    situation only: on Linux without a display, with CI in the environment,
    and with a test that uses [qapp]. *)
Theorem modifyitems_only_adds (p : conftest.Process)
    (items : list conftest.Item) :
  Forall2
    (fun item item' =>
       conftest.nodeid item' = conftest.nodeid item /\
       conftest.is_Function item' = conftest.is_Function item /\
       conftest.fixturenames item' = conftest.fixturenames item /\
       (forall name, is_Some (conftest.get_marker name item) ->
                     is_Some (conftest.get_marker name item')) /\
       (forall name, name <> "gui" -> name <> "skipif" ->
                     conftest.get_marker name item'
                     = conftest.get_marker name item) /\
       (conftest.uses_qapp item = false -> item' = item) /\
       (conftest.fixturenames item = None -> item' = item))
    items (snd (conftest.pytest_collection_modifyitems p items)) /\
  (forall message,
     fst (conftest.pytest_collection_modifyitems p items)
     <> conftest.Skipped message) /\
  (forall message,
     fst (conftest.pytest_collection_modifyitems p items)
     = conftest.RaisedException message ->
     message = "No display available on CI!" /\
     conftest.no_display p = true /\ conftest.on_CI p = true /\
     Exists (fun item => conftest.uses_qapp item = true) items).
Proof.
  induction items as [|item rest (IHitems & IHskip & IHraise)]; simpl.
  { split_and!; [constructor|done|]. intros message Hraise.
    discriminate Hraise. }
  pose proof (modify_item_keeps p item) as Hitem. cbv zeta in Hitem.
  assert (Houtcome :
    fst (conftest.modify_item p item) = conftest.Returned \/
    fst (conftest.modify_item p item)
      = conftest.RaisedException "No display available on CI!" /\
    conftest.uses_qapp item = true /\
    conftest.no_display p = true /\ conftest.on_CI p = true).
  { unfold conftest.modify_item.
    destruct (conftest.uses_qapp item); [|by left].
    destruct (conftest.no_display p); [|by left].
    destruct (conftest.on_CI p); [by right|by left]. }
  destruct (conftest.modify_item p item) as [outcome item'].
  simpl in Hitem, Houtcome.
  destruct Houtcome as [-> | (-> & Hq & Hdisplay & HCI)].
  - destruct (conftest.pytest_collection_modifyitems p rest)
      as [outcome rest'].
    simpl in *. split_and!; [by constructor|done|].
    intros message Hraise.
    destruct (IHraise message Hraise) as (? & ? & ? & ?).
    split_and!; try done. by apply Exists_cons_tl.
  - simpl. split_and!; [constructor; [done|]|done|].
    + apply Forall2_same_length_lookup_2; [done|].
      intros i x y Hx Hy. assert (y = x) as -> by congruence.
      by split_and!.
    + intros message [= <-]. split_and!; try done. by apply Exists_cons_hd.
Qed.

(** The gui marker.  When there is a display, or the run is not on CI, the
    hook returns, and each test that uses the [qapp] fixture has the marker
    [gui], and, without a display, the marker [skipif(True)] in place of
    any [skipif] it had; the other tests have the markers they had.  So a
    test has the marker [gui] afterwards exactly when it uses [qapp] or had
    the marker before. *)
Theorem modifyitems_marks_gui_tests (p : conftest.Process)
    (items : list conftest.Item) :
  conftest.no_display p = false \/ conftest.on_CI p = false ->
  fst (conftest.pytest_collection_modifyitems p items) = conftest.Returned /\
  Forall2
    (fun item item' =>
       conftest.get_marker "gui" item'
       = (if conftest.uses_qapp item then Some (conftest.mark "gui")
          else conftest.get_marker "gui" item) /\
       conftest.get_marker "skipif" item'
       = (if conftest.uses_qapp item && conftest.no_display p
          then Some (conftest.skipif true "No DISPLAY available")
          else conftest.get_marker "skipif" item) /\
       conftest.marked "gui" item'
       = conftest.uses_qapp item || conftest.marked "gui" item)
    items (snd (conftest.pytest_collection_modifyitems p items)).
Proof.
  intros Hquiet.
  assert (Hitem : forall item,
    fst (conftest.modify_item p item) = conftest.Returned /\
    conftest.get_marker "gui" (snd (conftest.modify_item p item))
    = (if conftest.uses_qapp item then Some (conftest.mark "gui")
       else conftest.get_marker "gui" item) /\
    conftest.get_marker "skipif" (snd (conftest.modify_item p item))
    = (if conftest.uses_qapp item && conftest.no_display p
       then Some (conftest.skipif true "No DISPLAY available")
       else conftest.get_marker "skipif" item)).
  { intros item. unfold conftest.modify_item.
    destruct (conftest.uses_qapp item); [|done].
    destruct (conftest.no_display p); simpl.
    - destruct Hquiet as [Hno | Hno]; [done|]. rewrite Hno. simpl.
      unfold conftest.get_marker. simpl.
      by rewrite lookup_insert_eq, lookup_insert_ne, lookup_insert_eq.
    - unfold conftest.get_marker. simpl.
      by rewrite lookup_insert_eq, lookup_insert_ne. }
  induction items as [|item rest [IHret IHitems]]; simpl.
  { split; [done|constructor]. }
  destruct (Hitem item) as (Hret & Hgui & Hskip).
  destruct (conftest.modify_item p item) as [outcome item'].
  simpl in Hret, Hgui, Hskip. subst outcome.
  destruct (conftest.pytest_collection_modifyitems p rest)
    as [outcome rest'].
  simpl in *. split; [done|]. constructor; [|done].
  split_and!; [done..|].
  unfold conftest.marked. rewrite Hgui.
  by destruct (conftest.uses_qapp item).
Qed.

(** On CI without a display.  The hook returns without a change when no
    test uses [qapp]; otherwise it raises at the first test that does,
    which is left with the [gui] marker and no skip marker, and the tests
    behind it are as they were, those that use [qapp] too. *)
Theorem modifyitems_raises_on_CI (p : conftest.Process)
    (items : list conftest.Item) :
  conftest.no_display p = true ->
  conftest.on_CI p = true ->
  (Forall (fun item => conftest.uses_qapp item = false) items ->
   conftest.pytest_collection_modifyitems p items
   = (conftest.Returned, items)) /\
  (forall pre item post,
     items = pre ++ item :: post ->
     Forall (fun item => conftest.uses_qapp item = false) pre ->
     conftest.uses_qapp item = true ->
     conftest.pytest_collection_modifyitems p items
     = (conftest.RaisedException "No display available on CI!",
        pre ++ conftest.add_marker (conftest.mark "gui") item :: post)).
Proof.
  intros Hdisplay HCI. split; [apply modifyitems_plain|].
  intros pre item post -> Hpre Hq.
  rewrite modifyitems_app by done. simpl.
  unfold conftest.modify_item. by rewrite Hq, Hdisplay, HCI.
Qed.

Lemma modifyitems_marks_gui_tests_witness :
  conftest.pytest_collection_modifyitems more_examples.headless
    more_examples.collected
  = (conftest.Returned,
     [ more_examples.test_split;
       conftest.add_marker (conftest.skipif true "No DISPLAY available")
         (conftest.add_marker (conftest.mark "gui")
            more_examples.test_window);
       more_examples.test_doc;
       conftest.add_marker (conftest.skipif true "No DISPLAY available")
         (conftest.add_marker (conftest.mark "gui")
            more_examples.test_prompt) ]) /\
  map (conftest.marked "gui")
    (snd (conftest.pytest_collection_modifyitems more_examples.desktop
            more_examples.collected))
  = [false; true; false; true].
Proof.
  destruct (modifyitems_marks_gui_tests more_examples.headless
              more_examples.collected) as [Hret _]; [by right|].
  destruct (modifyitems_marks_gui_tests more_examples.desktop
              more_examples.collected) as [_ Hmarks]; [by left|].
  split; [|by vm_compute].
  destruct (conftest.pytest_collection_modifyitems more_examples.headless
              more_examples.collected) as [outcome items'] eqn:Hrun.
  simpl in Hret. subst outcome. rewrite <- Hrun. reflexivity.
Defined.

(** [DISPLAY] and [CI] are both set to the empty string: the hook raises at
    the second test and leaves the fourth, which uses [qapp] too, without
    a marker. *)
Lemma modifyitems_raises_on_CI_witness :
  conftest.pytest_collection_modifyitems more_examples.headless_CI
    more_examples.collected
  = (conftest.RaisedException "No display available on CI!",
     [ more_examples.test_split;
       conftest.add_marker (conftest.mark "gui") more_examples.test_window;
       more_examples.test_doc;
       more_examples.test_prompt ]).
Proof.
  apply (proj2 (modifyitems_raises_on_CI more_examples.headless_CI
                  more_examples.collected eq_refl eq_refl)
           [more_examples.test_split] more_examples.test_window
           [more_examples.test_doc; more_examples.test_prompt]).
  - reflexivity.
  - by repeat constructor.
  - reflexivity.
Defined.

Ltac unmet H :=
  specialize (H eq_refl);
  first [ discriminate H
        | congruence
        | rewrite H in *; simpl in *; congruence ].

Ltac skipped :=
  split; [discriminate|];
  let Hf := fresh in
  let H1 := fresh in let H2 := fresh in let H3 := fresh in
  let H4 := fresh in let H5 := fresh in let H6 := fresh in
  intros [Hf|(H1 & H2 & H3 & H4 & H5 & H6)]; [discriminate Hf|];
  exfalso;
  first [ unmet H1 | unmet H2 | unmet H3 | unmet H4 | unmet H5 | unmet H6 ].

Ltac chain_step :=
  match goal with
  | |- context [if ?m && ?c then _ else _] =>
    destruct m eqn:?; simpl;
    [ first [ skipped | destruct c eqn:?; simpl; [skipped|] ] | ]
  end.

(** When [pytest_runtest_setup] returns. *)
Lemma runtest_setup_Returned (p : conftest.Process) (item : conftest.Item) :
  conftest.pytest_runtest_setup p item = conftest.Returned <->
  conftest.is_Function item = false \/
  ((conftest.marked "posix" item = true -> conftest.os_name p = "posix") /\
   (conftest.marked "windows" item = true -> conftest.os_name p = "nt") /\
   (conftest.marked "linux" item = true ->
    String.prefix "linux" (conftest.sys_platform p) = true) /\
   (conftest.marked "osx" item = true ->
    conftest.sys_platform p = "darwin") /\
   (conftest.marked "not_frozen" item = true -> conftest.frozen p = false) /\
   (conftest.marked "frozen" item = true -> conftest.frozen p = true)).
Proof.
  unfold conftest.pytest_runtest_setup.
  destruct (conftest.is_Function item); simpl; [|by split; [left|]].
  repeat chain_step.
  all: split; [|done]; intros _; right; split_and!; intros Hm;
    first [ discriminate Hm | done | by apply negb_false_iff
          | apply String.eqb_eq; by apply negb_false_iff ].
Qed.

Lemma runtest_setup_cases (p : conftest.Process) (item : conftest.Item) :
  conftest.pytest_runtest_setup p item = conftest.Returned \/
  exists message,
    conftest.pytest_runtest_setup p item = conftest.Skipped message.
Proof.
  unfold conftest.pytest_runtest_setup.
  repeat match goal with
         | |- context [if ?b then _ else _] => destruct b
         end; eauto.
Qed.

(** Which tests run.  The setup hook never raises; it skips a test or
    returns.  It returns exactly when the item is no test function, or
    every requirement among its markers is met: [posix] and [windows] by
    [os.name], [linux] by a [sys.platform] that starts with "linux", [osx]
    by the platform "darwin", [not_frozen] and [frozen] by [sys.frozen]
    (a [sys] without the attribute is not frozen).  No other marker and
    no fixture matters. *)
Theorem runtest_setup_runs_iff (p : conftest.Process)
    (item : conftest.Item) :
  (conftest.pytest_runtest_setup p item = conftest.Returned <->
   conftest.is_Function item = false \/
   ((conftest.marked "posix" item = true -> conftest.os_name p = "posix") /\
    (conftest.marked "windows" item = true -> conftest.os_name p = "nt") /\
    (conftest.marked "linux" item = true ->
     String.prefix "linux" (conftest.sys_platform p) = true) /\
    (conftest.marked "osx" item = true ->
     conftest.sys_platform p = "darwin") /\
    (conftest.marked "not_frozen" item = true ->
     conftest.frozen p = false) /\
    (conftest.marked "frozen" item = true -> conftest.frozen p = true))) /\
  (forall message,
     conftest.pytest_runtest_setup p item
     <> conftest.RaisedException message).
Proof.
  split; [apply runtest_setup_Returned|].
  intros message Hraise.
  destruct (runtest_setup_cases p item) as [Hret|[skipped Hskip]];
    congruence.
Qed.

(** Markers that exclude each other.  A test function marked [posix] and
    [windows], or [linux] and [osx], or [frozen] and [not_frozen], is
    skipped in every process: by the reason of the marker that comes first
    in the chain among those not met. *)
Theorem runtest_setup_exclusive_markers (p : conftest.Process)
    (item : conftest.Item) :
  conftest.is_Function item = true ->
  (conftest.marked "posix" item = true /\
   conftest.marked "windows" item = true) \/
  (conftest.marked "linux" item = true /\
   conftest.marked "osx" item = true) \/
  (conftest.marked "frozen" item = true /\
   conftest.marked "not_frozen" item = true) ->
  exists message,
    conftest.pytest_runtest_setup p item = conftest.Skipped message.
Proof.
  intros Hfunction Hmarkers.
  destruct (runtest_setup_cases p item) as [Hret|Hskip]; [|done].
  exfalso. apply runtest_setup_Returned in Hret
    as [Hf|(Hposix & Hnt & Hlinux & Hosx & Hnot & Hfrozen)]; [congruence|].
  destruct Hmarkers as [[H1 H2]|[[H1 H2]|[H1 H2]]].
  - specialize (Hposix H1). specialize (Hnt H2). congruence.
  - specialize (Hlinux H1). specialize (Hosx H2). rewrite Hosx in Hlinux.
    discriminate Hlinux.
  - specialize (Hfrozen H1). specialize (Hnot H2). congruence.
Qed.

(** A test marked [posix] and [windows] is skipped on Linux and on
    Windows, for two reasons. *)
Lemma runtest_setup_exclusive_markers_witness :
  conftest.pytest_runtest_setup more_examples.desktop more_examples.test_paths
  = conftest.Skipped "Requires Windows." /\
  conftest.pytest_runtest_setup more_examples.windows more_examples.test_paths
  = conftest.Skipped "Requires a POSIX os.".
Proof.
  destruct (runtest_setup_exclusive_markers more_examples.desktop
              more_examples.test_paths eq_refl) as [m1 H1];
    [left; split; reflexivity|].
  destruct (runtest_setup_exclusive_markers more_examples.windows
              more_examples.test_paths eq_refl) as [m2 H2];
    [left; split; reflexivity|].
  split; reflexivity.
Defined.

(** * The message mock *)

(** One message.  In a patched module each of [message.error],
    [message.info] and [message.warning] records one message behind those
    recorded before, with its own level and the arguments as given, and
    never raises.  After it [getmsg] returns that message if nothing was
    recorded before, and raises [ValueError] otherwise; [getmsg] leaves
    the messages as they are, so it answers the same when asked again. *)
Theorem getmsg_after_message (level : conftest.MessageLevel) (win_id : Z)
    (text : string) (immediately : bool) (self : conftest.MessageMock) :
  let message :=
    {| conftest.level := level; conftest.win_id := win_id;
       conftest.text := text; conftest.immediate := immediately |} in
  let self' := snd (conftest.patched level win_id text immediately self) in
  fst (conftest.patched level win_id text immediately self) = Ok tt /\
  conftest.messages self' = conftest.messages self ++ [message] /\
  conftest.getmsg self'
  = (if decide (conftest.messages self = []) then Ok message
     else Raise ValueError, self') /\
  conftest.getmsg (snd (conftest.getmsg self')) = conftest.getmsg self'.
Proof.
  intros message self'. subst self'.
  destruct level; simpl;
    unfold conftest._handle_error, conftest._handle_info,
      conftest._handle_warning, conftest._handle, conftest.getmsg,
      modify, bind, gets; simpl;
    (split_and!; try reflexivity;
     by destruct (conftest.messages self) as [|m0 [|m1 ms]]).
Qed.

Lemma getmsg_state (self : conftest.MessageMock) :
  snd (conftest.getmsg self) = self.
Proof.
  unfold conftest.getmsg, bind, gets.
  by destruct (conftest.messages self) as [|m0 [|m1 ms]].
Qed.

Lemma mock_step_messages (self self' : conftest.MessageMock) :
  conftest.mock_step self self' ->
  conftest.messages self `prefix_of` conftest.messages self'.
Proof.
  intros [level win_id text immediately s|s].
  - destruct level; simpl; by apply prefix_app_r.
  - by rewrite getmsg_state.
Qed.

(** The messages never shrink.  Whatever handlers and [getmsg] calls
    follow, the messages recorded so far stay, in their order, at the head
    of the list: nothing takes a message out, [getmsg] least of all.  So
    once there are two messages, every later [getmsg] raises
    [ValueError]: a mock serves one message in its life. *)
Theorem messages_never_shrink (self self' : conftest.MessageMock) :
  rtc conftest.mock_step self self' ->
  conftest.messages self `prefix_of` conftest.messages self' /\
  ((2 <= length (conftest.messages self))%nat ->
   fst (conftest.getmsg self') = Raise ValueError).
Proof.
  intros Hrun.
  assert (Hprefix : conftest.messages self `prefix_of`
                    conftest.messages self').
  { induction Hrun as [s|s mid s' Hstep _ IH]; [done|].
    etrans; [by apply mock_step_messages|done]. }
  split; [done|]. intros Htwo.
  apply prefix_length in Hprefix.
  unfold conftest.getmsg, bind, gets. simpl.
  destruct (conftest.messages self') as [|m0 [|m1 ms]]; simpl in *;
    [lia..|done].
Qed.

(** An error and a warning are recorded; [getmsg] raises then and after
    one more look. *)
Lemma messages_never_shrink_witness :
  let self :=
    snd (conftest._handle_warning 0 "slow" false
           (snd (conftest._handle_error 0 "failed" true
                   conftest.MessageMock_init))) in
  fst (conftest.getmsg (snd (conftest.getmsg self))) = Raise ValueError.
Proof.
  intros self.
  apply (proj2 (messages_never_shrink self (snd (conftest.getmsg self))
                  ltac:(eapply rtc_l; [apply conftest.step_getmsg|];
                        apply rtc_refl))).
  simpl. lia.
Defined.
